(** * Alias expansion of the Postfix local delivery agent

    A shallow embedding of [src/postfix/local/alias.c] ([dict_owner] and
    [deliver_alias]) together with the properties that the design
    document states about it.

    The C function works on private copies of the delivery state and of
    the user attributes, writes the delivery status through a pointer,
    and talks to the rest of the mail system through library calls
    (dictionary lookups, the password database, the bounce, defer and
    sent logs, the token delivery engine).  The embedding keeps all of
    this visible: a call yields a [run] that records how the function
    left, what it stored in [*statusp], the final contents of its private
    copies, and the ordered list of library calls it made. *)

From Stdlib Require Import ZArith List String Ascii Bool Lia.
Import ListNotations.

Local Open Scope Z_scope.

(** ** The pieces of the C library that the code relies on *)

Module C.

(** [tolower] of the C locale: only the 26 upper case letters move. *)
Definition tolower (c : ascii) : ascii :=
  let n := N_of_ascii c in
  if (N.leb 65 n && N.leb n 90)%bool then ascii_of_N (n + 32) else c.

Definition code (c : ascii) : Z := Z.of_N (N_of_ascii c).

(** [strcasecmp]: the difference of the first pair of characters that
    differ after case folding, zero when there is none.  The end of a
    string compares as the NUL character. *)
Fixpoint strcasecmp (s t : string) : Z :=
  match s, t with
  | EmptyString, EmptyString => 0
  | EmptyString, String b _ => 0 - code (tolower b)
  | String a _, EmptyString => code (tolower a)
  | String a s', String b t' =>
      if code (tolower a) =? code (tolower b)
      then strcasecmp s' t'
      else code (tolower a) - code (tolower b)
  end.

(** [int] is taken to be 32 bits wide; [n++] wraps around.  *)
Definition INT_MIN : Z := - 2 ^ 31.
Definition INT_MAX : Z := 2 ^ 31 - 1.
Definition wrap_int (n : Z) : Z := (n + 2 ^ 31) mod 2 ^ 32 - 2 ^ 31.
Definition incr (n : Z) : Z := wrap_int (n + 1).

End C.

(** ** Data *)

Definition uid_t := Z.

(** [#define NO 0] and [#define YES 1] (alias.c, lines 96-97). *)
Definition NO : Z := 0.
Definition YES : Z := 1.

(** The message attributes that [deliver_alias] reads or writes.  Null
    pointers are [None]. *)
Record DELIVER_ATTR := mkDELIVER_ATTR {
  sender : string;
  recipient : string;
  local : string;
  owner : option string;
  delivered : option string;
  exp_type : Z;
  exp_from : option string
}.

Record LOCAL_STATE := mkLOCAL_STATE {
  level : Z;
  msg_attr : DELIVER_ATTR
}.

(** [maps->argv->argv]: the names of the lookup tables, in the configured
    order. *)
Record MAPS := mkMAPS { argv : list string }.

(** An open dictionary: the code only looks at its file descriptor. *)
Record DICT := mkDICT { fd : Z }.

(** The one field of [struct stat] that is used. *)
Record stat := mkstat { st_uid : uid_t }.

Definition set_level (s : LOCAL_STATE) (n : Z) : LOCAL_STATE :=
  {| level := n; msg_attr := msg_attr s |}.

Definition set_msg_attr (s : LOCAL_STATE) (a : DELIVER_ATTR) : LOCAL_STATE :=
  {| level := level s; msg_attr := a |}.

Definition set_exp_from (a : DELIVER_ATTR) (v : option string) : DELIVER_ATTR :=
  {| sender := sender a; recipient := recipient a; local := local a;
     owner := owner a; delivered := delivered a; exp_type := exp_type a;
     exp_from := v |}.

Definition set_exp_type (a : DELIVER_ATTR) (v : Z) : DELIVER_ATTR :=
  {| sender := sender a; recipient := recipient a; local := local a;
     owner := owner a; delivered := delivered a; exp_type := v;
     exp_from := exp_from a |}.

Definition set_delivered (a : DELIVER_ATTR) (v : option string) : DELIVER_ATTR :=
  {| sender := sender a; recipient := recipient a; local := local a;
     owner := owner a; delivered := v; exp_type := exp_type a;
     exp_from := exp_from a |}.

(** Modelled from the spec: the macro SET_OWNER_ATTR is defined in local.h,
    which is not among the sources.  The manual page at the head of alias.c
    says that the sender address is changed to the owner alias and that the
    owner attribute is set accordingly. *)
Definition SET_OWNER_ATTR (a : DELIVER_ATTR) (who : string) : DELIVER_ATTR :=
  {| sender := who; recipient := recipient a; local := local a;
     owner := Some who; delivered := delivered a; exp_type := exp_type a;
     exp_from := exp_from a |}.

(** Modelled from the spec: the macro RESET_OWNER_ATTR is defined in
    local.h, which is not among the sources.  It resets the owner attribute
    to no owner. *)
Definition RESET_OWNER_ATTR (a : DELIVER_ATTR) : DELIVER_ATTR :=
  {| sender := sender a; recipient := recipient a; local := local a;
     owner := None; delivered := delivered a; exp_type := exp_type a;
     exp_from := exp_from a |}.

Section Alias.

(** The record that the password database returns ([struct mypasswd]). *)
Context {mypasswd : Type}.

(** Modelled from the spec: USER_ATTR and the macros RESET_USER_ATTR and
    SET_USER_ATTR are defined in local.h, which is not among the sources.
    The privilege identity is either the fixed default identity, or the
    identity resolved from the account that owns the alias source. *)
Inductive USER_ATTR :=
| default_rights
| owner_rights (pwd : mypasswd).

Definition RESET_USER_ATTR (_ : USER_ATTR) : USER_ATTR := default_rights.
Definition SET_USER_ATTR (_ : USER_ATTR) (pwd : mypasswd) : USER_ATTR :=
  owner_rights pwd.

(** The library calls that [deliver_alias] makes and that the properties
    below speak about, with their arguments. *)
Inductive event :=
| ev_msg_warn (text : string)
| ev_dict_lookup (table key : string)
| ev_maps_find (maps : MAPS) (key : string)
| ev_bounce_append (flags : Z) (attr : DELIVER_ATTR) (why : string)
| ev_defer_append (flags : Z) (attr : DELIVER_ATTR) (why : string)
| ev_sent (attr : DELIVER_ATTR) (why : string)
| ev_deliver_token_string (state : LOCAL_STATE) (usr_attr : USER_ATTR)
                          (expansion : string).

(** The collaborators of alias.c: configuration parameters, constants of
    header files and library routines whose code lives elsewhere.  A
    dictionary lookup yields the returned pointer and the value that it
    leaves in the global [dict_errno]. *)
Class Collaborators := {
  var_alias_maps : string;
  var_ownreq_special : Z;
  BOUNCE_FLAG_KEEP : Z;
  EXPAND_TYPE_ALIAS : Z;
  MAIL_ADDR_MAIL_DAEMON : string;
  MAIL_ADDR_POSTMASTER : string;
  maps_create : string -> string -> MAPS;
  maps_find : MAPS -> string -> option string * Z;
  dict_lookup : string -> string -> option string * Z;
  dict_handle : string -> option DICT;
  fstat : Z -> option stat;
  mypwuid : uid_t -> option mypasswd;
  canon_addr_internal : string -> string;
  bounce_append : Z -> DELIVER_ATTR -> string -> Z;
  defer_append : Z -> DELIVER_ATTR -> string -> Z;
  sent : DELIVER_ATTR -> string -> Z;
  deliver_token_string : LOCAL_STATE -> USER_ATTR -> string -> Z
}.

Context {X : Collaborators}.

(** How a call ends: it returns a value, or [msg_panic] / [msg_fatal]
    terminate the process. *)
Inductive exit :=
| Return (v : Z)
| Panic (text : string)
| Fatal (text : string).

Record run := mkrun {
  r_exit : exit;
  r_status : option Z;          (* the value stored in [*statusp], if any *)
  r_trace : list event;         (* library calls, oldest first *)
  r_state : LOCAL_STATE;        (* the private copy of [state] at the end *)
  r_usr_attr : USER_ATTR        (* the private copy of [usr_attr] at the end *)
}.

Definition emit (evs : list event) (r : run) : run :=
  {| r_exit := r_exit r; r_status := r_status r;
     r_trace := evs ++ r_trace r;
     r_state := r_state r; r_usr_attr := r_usr_attr r |}.

(** *** dict_owner - find out alias database owner (lines 101-118)

    The texts are those of the source, without the system error text that
    [%m] appends. *)

Inductive owner_result :=
| owner_uid (uid : uid_t)
| owner_panic (text : string)
| owner_fatal (text : string).

Definition dict_owner (table : string) : owner_result :=
  match dict_handle table with
  | None => owner_panic ("dict_owner: can't find dictionary: " ++ table)
  | Some dict =>
      if fd dict <? 0 then owner_uid 0
      else match fstat (fd dict) with
           | None => owner_fatal ("dict_owner: fstat dictionary " ++ table)
           | Some st => owner_uid (st_uid st)
           end
  end.

(** *** deliver_alias - expand alias file entry (lines 122-305)

    The verbose logging under [msg_verbose] changes neither the result
    nor any call below and is left out. *)

(** [static MAPS *maps]: created on the first call only (lines 144-145).
    The argument is the value of the static variable on entry. *)
Definition alias_maps (cached : option MAPS) : MAPS :=
  match cached with
  | Some maps => maps
  | None => maps_create "aliases" var_alias_maps
  end.

(** The test of lines 162-163. *)
Definition self_reference (state : LOCAL_STATE) : bool :=
  match exp_from (msg_attr state) with
  | None => false
  | Some from => C.strcasecmp from (local (msg_attr state)) =? 0
  end.

(** [OWNER_ASSIGN] (lines 233-235). *)
Definition OWNER_ASSIGN (state : LOCAL_STATE) : option string :=
  if var_ownreq_special =? 0 then None
  else Some ("owner-" ++ local (msg_attr state))%string.

(** Lines 237-269: the rights have been chosen; find out where to report
    problems, then deliver.  [dict_errno] is the value left by the lookup
    that found the alias.  [mystrdup] copies the text, and the copies are
    released before the return (lines 262-268). *)
Definition alias_deliver (maps : MAPS) (alias_result : string)
    (dict_errno : Z) (state : LOCAL_STATE) (usr_attr : USER_ATTR) : run :=
  let expansion := alias_result in
  let '(attr, dict_errno, probe) :=
    match OWNER_ASSIGN state with
    | None =>
        (RESET_OWNER_ATTR (msg_attr state), dict_errno, [])
    | Some owner =>
        let '(found, dict_errno) := maps_find maps owner in
        match found with
        | Some _ =>
            (SET_OWNER_ATTR (msg_attr state) (canon_addr_internal owner),
             dict_errno, [ev_maps_find maps owner])
        | None =>
            (RESET_OWNER_ATTR (msg_attr state),
             dict_errno, [ev_maps_find maps owner])
        end
    end in
  let attr := set_delivered attr (Some (recipient attr)) in
  let state := set_msg_attr state attr in
  if negb (dict_errno =? 0) then
    {| r_exit := Return YES;
       r_status := Some (defer_append BOUNCE_FLAG_KEEP attr
                           "alias database unavailable");
       r_trace := probe ++ [ev_defer_append BOUNCE_FLAG_KEEP attr
                              "alias database unavailable"];
       r_state := state; r_usr_attr := usr_attr |}
  else
    {| r_exit := Return YES;
       r_status := Some (deliver_token_string state usr_attr expansion);
       r_trace := probe ++ [ev_deliver_token_string state usr_attr expansion];
       r_state := state; r_usr_attr := usr_attr |}.

(** Lines 191-223: an alias was found in [table]; choose the rights. *)
Definition alias_found (maps : MAPS) (table alias_result : string)
    (dict_errno : Z) (state : LOCAL_STATE) (usr_attr : USER_ATTR) : run :=
  let state :=
    set_msg_attr state (set_exp_type (msg_attr state) EXPAND_TYPE_ALIAS) in
  match dict_owner table with
  | owner_panic text =>
      {| r_exit := Panic text; r_status := None; r_trace := [];
         r_state := state; r_usr_attr := usr_attr |}
  | owner_fatal text =>
      {| r_exit := Fatal text; r_status := None; r_trace := [];
         r_state := state; r_usr_attr := usr_attr |}
  | owner_uid alias_uid =>
      if alias_uid =? 0 then
        alias_deliver maps alias_result dict_errno state
                      (RESET_USER_ATTR usr_attr)
      else
        match mypwuid alias_uid with
        | None =>
            {| r_exit := Return YES;
               r_status := Some (defer_append BOUNCE_FLAG_KEEP (msg_attr state)
                                   "cannot find alias database owner");
               r_trace :=
                 [ev_msg_warn ("cannot find alias database owner for "
                               ++ table);
                  ev_defer_append BOUNCE_FLAG_KEEP (msg_attr state)
                                  "cannot find alias database owner"];
               r_state := state; r_usr_attr := usr_attr |}
        | Some alias_pwd =>
            alias_deliver maps alias_result dict_errno state
                          (SET_USER_ATTR usr_attr alias_pwd)
        end
  end.

(** [STREQ] (line 292) applied to the two reserved names (lines 294-295). *)
Definition reserved_name (name : string) : bool :=
  (C.strcasecmp name MAIL_ADDR_MAIL_DAEMON =? 0)
  || (C.strcasecmp name MAIL_ADDR_POSTMASTER =? 0).

(** Lines 288-304: no table has the alias. *)
Definition alias_missing (state : LOCAL_STATE) (usr_attr : USER_ATTR) : run :=
  if reserved_name (local (msg_attr state)) then
    {| r_exit := Return YES;
       r_status := Some (sent (msg_attr state) "discarded");
       r_trace :=
         [ev_msg_warn ("required alias not found: "
                       ++ local (msg_attr state));
          ev_sent (msg_attr state) "discarded"];
       r_state := state; r_usr_attr := usr_attr |}
  else
    {| r_exit := Return NO; r_status := None; r_trace := [];
       r_state := state; r_usr_attr := usr_attr |}.

(** The loop of lines 189-286 over the remaining table names [cpp],
    followed by lines 288-304. *)
Fixpoint alias_scan (maps : MAPS) (cpp : list string)
    (state : LOCAL_STATE) (usr_attr : USER_ATTR) : run :=
  match cpp with
  | [] => alias_missing state usr_attr
  | table :: cpp' =>
      let '(alias_result, dict_errno) :=
        dict_lookup table (local (msg_attr state)) in
      emit [ev_dict_lookup table (local (msg_attr state))]
        match alias_result with
        | Some alias_result =>
            alias_found maps table alias_result dict_errno state usr_attr
        | None =>
            if negb (dict_errno =? 0) then
              {| r_exit := Return YES;
                 r_status := Some (defer_append BOUNCE_FLAG_KEEP
                                     (msg_attr state)
                                     "alias database unavailable");
                 r_trace := [ev_defer_append BOUNCE_FLAG_KEEP
                               (msg_attr state)
                               "alias database unavailable"];
                 r_state := state; r_usr_attr := usr_attr |}
            else alias_scan maps cpp' state usr_attr
        end
  end.

Definition deliver_alias (cached : option MAPS) (state : LOCAL_STATE)
    (usr_attr : USER_ATTR) : run :=
  let state := set_level state (C.incr (level state)) in
  let maps := alias_maps cached in
  if self_reference state then
    {| r_exit := Return NO; r_status := None; r_trace := [];
       r_state := state; r_usr_attr := usr_attr |}
  else if 100 <? level state then
    let why := ("possible alias database loop for "
                ++ local (msg_attr state))%string in
    {| r_exit := Return YES;
       r_status := Some (bounce_append BOUNCE_FLAG_KEEP (msg_attr state) why);
       r_trace := [ev_msg_warn why;
                   ev_bounce_append BOUNCE_FLAG_KEEP (msg_attr state) why];
       r_state := state; r_usr_attr := usr_attr |}
  else
    let state :=
      set_msg_attr state
        (set_exp_from (msg_attr state) (Some (local (msg_attr state)))) in
    alias_scan maps (argv maps) state usr_attr.

End Alias.

Arguments USER_ATTR : clear implicits.
Arguments event : clear implicits.
Arguments exit : clear implicits.
Arguments run : clear implicits.
Arguments Collaborators : clear implicits.

(** ** A small installation to run the code on *)

Module Site.

Local Open Scope string_scope.

(** Three alias files and a network table that is down. *)
Definition etc_aliases : string := "hash:/etc/aliases".
Definition list_aliases : string := "hash:/home/list/aliases".
Definition gone_aliases : string := "hash:/home/gone/aliases".
Definition nis_aliases : string := "nis:mail.aliases".

Definition lookup (table key : string) : option string * Z :=
  if String.eqb table etc_aliases then
    if String.eqb key "staff" then (Some "alice,bob", 0)
    else if String.eqb key "owner-staff" then (Some "admin", 0)
    else if String.eqb key "self" then (Some "self", 0)
    else (None, 0)
  else if String.eqb table list_aliases then
    if String.eqb key "dev" then (Some "carol", 0) else (None, 0)
  else if String.eqb table gone_aliases then
    if String.eqb key "ghost" then (Some "dave", 0) else (None, 0)
  else if String.eqb table nis_aliases then (None, 1)
  else (None, 0).

(** The tables are searched in order; the search stops at the first
    table that has the key or that fails. *)
Fixpoint find (tables : list string) (key : string) : option string * Z :=
  match tables with
  | [] => (None, 0)
  | table :: rest =>
      match lookup table key with
      | (Some text, errno) => (Some text, errno)
      | (None, errno) => if (errno =? 0)%Z then find rest key else (None, errno)
      end
  end.

Definition handle (table : string) : option DICT :=
  if String.eqb table etc_aliases then Some (mkDICT 3)
  else if String.eqb table list_aliases then Some (mkDICT 4)
  else if String.eqb table gone_aliases then Some (mkDICT 5)
  else if String.eqb table nis_aliases then Some (mkDICT (-1))
  else None.

Definition file_owner (fd : Z) : option stat :=
  if (fd =? 3)%Z then Some (mkstat 0)
  else if (fd =? 4)%Z then Some (mkstat 1001)
  else if (fd =? 5)%Z then Some (mkstat 1002)
  else None.

(** Account 1001 exists, account 1002 has been removed. *)
Definition pwuid (uid : uid_t) : option string :=
  if (uid =? 1001)%Z then Some "list" else None.

(** The installation, for a given list of alias tables and a given
    setting of owner_request_special.  The log routines answer with
    distinct codes so that one can tell them apart. *)
Definition site (tables : list string) (ownreq : Z)
  : Collaborators string :=
  {| var_alias_maps := String.concat ", " tables;
     var_ownreq_special := ownreq;
     BOUNCE_FLAG_KEEP := 0;
     EXPAND_TYPE_ALIAS := 1;
     MAIL_ADDR_MAIL_DAEMON := "MAILER-DAEMON";
     MAIL_ADDR_POSTMASTER := "postmaster";
     maps_create := fun _ _ => mkMAPS tables;
     maps_find := fun maps key => find (argv maps) key;
     dict_lookup := lookup;
     dict_handle := handle;
     fstat := file_owner;
     mypwuid := pwuid;
     canon_addr_internal := fun addr => (addr ++ "@example.com")%string;
     bounce_append := fun _ _ _ => 0;
     defer_append := fun _ _ _ => -1;
     sent := fun _ _ => 0;
     deliver_token_string := fun _ _ _ => 0 |}.

(** A top-level request for [name], and the same request at nesting
    depth [depth] inside the expansion of [from]. *)
Definition request (name : string) : LOCAL_STATE :=
  {| level := 0;
     msg_attr := {| sender := "sender@example.org";
                    recipient := (name ++ "@example.com")%string;
                    local := name;
                    owner := None;
                    delivered := None;
                    exp_type := 0;
                    exp_from := None |} |}.

Definition nested (name : string) (depth : Z) (from : option string)
    (parent_owner : option string) : LOCAL_STATE :=
  {| level := depth;
     msg_attr := {| sender := "sender@example.org";
                    recipient := (name ++ "@example.com")%string;
                    local := name;
                    owner := parent_owner;
                    delivered := None;
                    exp_type := 0;
                    exp_from := from |} |}.

(** Installations and requests used below. *)

(** The list's own table first, then the system table, then NIS. *)
Definition office : Collaborators string :=
  site [list_aliases; etc_aliases; nis_aliases] 1.

(** NIS in the middle: it is down, so nothing after it can be reached. *)
Definition nis_down : Collaborators string :=
  site [etc_aliases; nis_aliases; list_aliases] 1.

(** A table whose owner has been removed from the password database. *)
Definition orphaned : Collaborators string :=
  site [etc_aliases; gone_aliases] 1.

Definition orphaned_no_owner_special : Collaborators string :=
  site [etc_aliases; gone_aliases] 0.

(** The list's table, backed by NIS only. *)
Definition list_then_nis : Collaborators string :=
  site [list_aliases; nis_aliases] 1.

Definition staff_top : LOCAL_STATE := request "staff".
Definition dev_top : LOCAL_STATE := request "dev".
Definition ghost_top : LOCAL_STATE := request "ghost".
Definition nobody_top : LOCAL_STATE := request "nobody".
Definition self_top : LOCAL_STATE := request "self".

(** [staff] reached at depth 100, from some other name. *)
Definition staff_deep : LOCAL_STATE := nested "staff" 100 (Some "dev") None.

(** [staff] reached at depth 100 from its own expansion. *)
Definition staff_in_staff_deep : LOCAL_STATE :=
  nested "staff" 100 (Some "Staff") None.

(** [nobody] reached at depth 100. *)
Definition nobody_deep : LOCAL_STATE := nested "nobody" 100 (Some "staff") None.

(** [postmaster] reached from its own expansion. *)
Definition postmaster_in_postmaster : LOCAL_STATE :=
  nested "postmaster" 3 (Some "Postmaster") None.

(** [ghost] reached from the expansion of [staff], which has an owner. *)
Definition ghost_in_staff : LOCAL_STATE :=
  nested "ghost" 3 (Some "staff") (Some "owner-staff@example.com").

(** Rights that a caller might hold. *)
Definition somebody : USER_ATTR string := owner_rights "somebody".

End Site.

(** ** Properties *)

Section Properties.

Context {mypasswd : Type} {X : Collaborators mypasswd}.

(** *** Vocabulary *)

(** The private copy of the state after line 137, and after line 171. *)
Definition at_entry (state : LOCAL_STATE) : LOCAL_STATE :=
  set_level state (C.incr (level state)).

Definition expanding (state : LOCAL_STATE) : LOCAL_STATE :=
  set_msg_attr state
    (set_exp_from (msg_attr state) (Some (local (msg_attr state)))).

(** The table does not have the key, and says so without an error. *)
Definition not_found (key table : string) : Prop :=
  dict_lookup table key = (None, 0).

(** The lookups of one key in a list of tables, in order. *)
Definition lookups (key : string) (tables : list string)
  : list (event mypasswd) :=
  map (fun table => ev_dict_lookup table key) tables.

Definition is_dispatch (e : event mypasswd) : bool :=
  match e with
  | ev_deliver_token_string _ _ _ => true
  | _ => false
  end.

Definition is_lookup (e : event mypasswd) : bool :=
  match e with
  | ev_dict_lookup _ _ => true
  | _ => false
  end.

Definition is_maps_find (e : event mypasswd) : bool :=
  match e with
  | ev_maps_find _ _ => true
  | _ => false
  end.

(** How often the delivery engine was called. *)
Definition dispatches (trace : list (event mypasswd)) : nat :=
  List.length (filter is_dispatch trace).

(** The rights for the alias source could be chosen: the source belongs
    to uid 0, or its owner is in the password database. *)
Definition rights_for (table : string) (usr_attr : USER_ATTR mypasswd)
  : option (USER_ATTR mypasswd) :=
  match dict_owner table with
  | owner_uid uid =>
      if uid =? 0 then Some (RESET_USER_ATTR usr_attr)
      else match mypwuid uid with
           | Some pwd => Some (SET_USER_ATTR usr_attr pwd)
           | None => None
           end
  | _ => None
  end.

(** The value of [dict_errno] at line 258, when the alias lookup left
    [errno]: the owner probe, if there is one, overwrites it. *)
Definition errno_at_delivery (maps : MAPS) (state : LOCAL_STATE)
    (errno : Z) : Z :=
  match OWNER_ASSIGN state with
  | None => errno
  | Some owner => snd (maps_find maps owner)
  end.

(** The report of a suspected loop is a deferral. *)
Definition deferred_report (r : run mypasswd) : Prop :=
  exists flags attr why, In (ev_defer_append flags attr why) (r_trace r).

Implicit Types (state st : LOCAL_STATE) (usr_attr ua : USER_ATTR mypasswd).
Implicit Types (cached : option MAPS) (maps : MAPS) (r : run mypasswd).

(** *** The C library *)

Lemma strcasecmp_refl (s : string) : C.strcasecmp s s = 0.
Proof.
  induction s as [|a s IH]; simpl.
  - reflexivity.
  - rewrite Z.eqb_refl. exact IH.
Qed.

Lemma incr_changes (n : Z) : C.incr n <> n.
Proof.
  unfold C.incr, C.wrap_int. intros E.
  assert (B : 0 <= (n + 1 + 2 ^ 31) mod 2 ^ 32 < 2 ^ 32)
    by (apply Z.mod_pos_bound; lia).
  destruct (Z_lt_dec (n + 1 + 2 ^ 31) (2 ^ 32)) as [L|L].
  - rewrite Z.mod_small in E by lia. lia.
  - assert (S : n + 1 + 2 ^ 31 = 2 ^ 32) by lia.
    rewrite S, Z.mod_same in E by lia. lia.
Qed.

Lemma incr_in_range (n : Z) :
  C.INT_MIN <= n < C.INT_MAX -> C.incr n = n + 1.
Proof.
  unfold C.incr, C.wrap_int, C.INT_MIN, C.INT_MAX. intros B.
  rewrite Z.mod_small by lia. lia.
Qed.

(** *** The three ways through the head of [deliver_alias] *)

Lemma self_reference_spec st :
  self_reference st = true <->
  exists from, exp_from (msg_attr st) = Some from /\
               C.strcasecmp from (local (msg_attr st)) = 0.
Proof.
  unfold self_reference. destruct (exp_from (msg_attr st)) as [from|].
  - rewrite Z.eqb_eq. split.
    + intros E. exists from. split; [reflexivity | exact E].
    + intros (f & Ef & E). injection Ef as <-. exact E.
  - split; [discriminate | intros (f & Ef & _); discriminate].
Qed.

Lemma deliver_alias_short_circuit cached st ua :
  self_reference st = true ->
  deliver_alias cached st ua =
  {| r_exit := Return NO; r_status := None; r_trace := [];
     r_state := at_entry st; r_usr_attr := ua |}.
Proof.
  intros H. unfold deliver_alias.
  change (self_reference (set_level st (C.incr (level st))))
    with (self_reference st).
  rewrite H. reflexivity.
Qed.

Lemma deliver_alias_too_deep cached st ua :
  self_reference st = false ->
  100 < C.incr (level st) ->
  let why := ("possible alias database loop for "
              ++ local (msg_attr st))%string in
  deliver_alias cached st ua =
  {| r_exit := Return YES;
     r_status := Some (bounce_append BOUNCE_FLAG_KEEP (msg_attr st) why);
     r_trace := [ev_msg_warn why;
                 ev_bounce_append BOUNCE_FLAG_KEEP (msg_attr st) why];
     r_state := at_entry st; r_usr_attr := ua |}.
Proof.
  intros H L why. unfold deliver_alias.
  change (self_reference (set_level st (C.incr (level st))))
    with (self_reference st).
  rewrite H. cbn [level set_level msg_attr].
  apply Z.ltb_lt in L. rewrite L. reflexivity.
Qed.

Lemma deliver_alias_scans cached st ua :
  self_reference st = false ->
  C.incr (level st) <= 100 ->
  deliver_alias cached st ua =
  alias_scan (alias_maps cached) (argv (alias_maps cached))
             (expanding (at_entry st)) ua.
Proof.
  intros H L. unfold deliver_alias.
  change (self_reference (set_level st (C.incr (level st))))
    with (self_reference st).
  rewrite H. cbn [level set_level msg_attr].
  apply Z.ltb_ge in L. rewrite L. reflexivity.
Qed.

(** *** Bookkeeping for [emit] *)

Lemma emit_nil r : emit [] r = r.
Proof. destruct r; reflexivity. Qed.

Lemma emit_emit (evs evs' : list (event mypasswd)) r :
  emit evs (emit evs' r) = emit (evs ++ evs') r.
Proof. unfold emit; simpl. rewrite app_assoc. reflexivity. Qed.

Lemma lookups_app key (l l' : list string) :
  lookups key (l ++ l') = lookups key l ++ lookups key l'.
Proof. apply map_app. Qed.

Lemma dispatches_app (l l' : list (event mypasswd)) :
  dispatches (l ++ l') = (dispatches l + dispatches l')%nat.
Proof. unfold dispatches. rewrite filter_app, length_app. reflexivity. Qed.

Lemma dispatches_lookups key (l : list string) : dispatches (lookups key l) = 0%nat.
Proof. induction l as [|t l IH]; [reflexivity | exact IH]. Qed.

Lemma lookups_only key (l : list string) e :
  In e (lookups key l) -> exists table, In table l /\ e = ev_dict_lookup table key.
Proof.
  unfold lookups. rewrite in_map_iff. intros (t & E & I).
  exists t. split; [exact I | symmetry; exact E].
Qed.

(** *** After a match: no further table is asked for the recipient *)

Ltac owner_cases maps st :=
  unfold alias_deliver;
  destruct (OWNER_ASSIGN st) as [?candidate|];
  [ destruct (maps_find maps candidate) as [[?text|] ?errno] | ];
  match goal with
  | |- context [negb (?e =? 0)] => destruct (e =? 0) eqn:?Hzero
  end;
  cbn [negb r_exit r_status r_trace r_state r_usr_attr app].

Ltac rights_cases table :=
  unfold alias_found;
  destruct (dict_owner table) as [?uid|?text|?text];
  [ match goal with
    | |- context [?u =? 0] =>
        destruct (u =? 0) eqn:?Hroot;
        [ | destruct (mypwuid u) as [?pwd|] eqn:?Hpwd ]
    end | | ];
  cbn [r_exit r_status r_trace r_state r_usr_attr].

Ltac not_this_event :=
  repeat match goal with
         | H : In _ (_ :: _) |- _ => destruct H as [H|H]
         | H : In _ [] |- _ => destruct H
         | H : ?a = ?e |- _ => is_var e; subst e; try reflexivity
         | H : _ = _ |- _ => discriminate H
         end.

Lemma alias_deliver_returns maps text errno st ua :
  r_exit (alias_deliver maps text errno st ua) = Return YES.
Proof. owner_cases maps st; reflexivity. Qed.

Lemma alias_deliver_keeps_rights maps text errno st ua :
  r_usr_attr (alias_deliver maps text errno st ua) = ua.
Proof. owner_cases maps st; reflexivity. Qed.

Lemma alias_deliver_asks_no_table maps text errno st ua e :
  In e (r_trace (alias_deliver maps text errno st ua)) -> is_lookup e = false.
Proof. owner_cases maps st; intros H; not_this_event. Qed.

Lemma alias_deliver_dispatch_rights maps text errno st ua s u x :
  In (ev_deliver_token_string s u x)
     (r_trace (alias_deliver maps text errno st ua)) ->
  u = ua /\ x = text.
Proof.
  owner_cases maps st; intros H; not_this_event;
    injection H as <- <- <-; split; reflexivity.
Qed.

Lemma alias_found_asks_no_table maps table text errno st ua e :
  In e (r_trace (alias_found maps table text errno st ua)) -> is_lookup e = false.
Proof.
  rights_cases table; try apply alias_deliver_asks_no_table;
    intros H; not_this_event.
Qed.

Lemma alias_missing_asks_no_table st ua e :
  In e (r_trace (alias_missing st ua)) -> is_lookup e = false.
Proof.
  unfold alias_missing. destruct (reserved_name _); cbn [r_trace];
    intros H; not_this_event.
Qed.

(** *** The scan *)

Lemma alias_scan_skips maps (pre rest : list string) st ua :
  Forall (not_found (local (msg_attr st))) pre ->
  alias_scan maps (pre ++ rest) st ua =
  emit (lookups (local (msg_attr st)) pre) (alias_scan maps rest st ua).
Proof.
  induction 1 as [|t pre Ht _ IH]; simpl.
  - symmetry. apply emit_nil.
  - unfold not_found in Ht. rewrite Ht. cbn [negb Z.eqb].
    rewrite IH, emit_emit. reflexivity.
Qed.

Lemma alias_scan_asked maps (cpp : list string) st ua table key :
  In (ev_dict_lookup table key) (r_trace (alias_scan maps cpp st ua)) ->
  key = local (msg_attr st) /\
  exists pre post, cpp = pre ++ table :: post /\ Forall (not_found key) pre.
Proof.
  induction cpp as [|t cpp IH]; simpl.
  - intros H. apply alias_missing_asks_no_table in H. cbn in H. discriminate H.
  - destruct (dict_lookup t (local (msg_attr st))) as [[text|] errno] eqn:E;
      cbn [emit r_trace app]; intros [H|H].
    + injection H as <- <-. split; [reflexivity|].
      exists [], cpp. split; [reflexivity | constructor].
    + apply alias_found_asks_no_table in H. cbn in H. discriminate H.
    + injection H as <- <-. split; [reflexivity|].
      exists [], cpp. split; [reflexivity | constructor].
    + destruct (errno =? 0) eqn:Z0; cbn [negb r_trace] in H.
      * apply Z.eqb_eq in Z0. subst errno.
        destruct (IH H) as (-> & pre & post & -> & F).
        split; [reflexivity|].
        exists (t :: pre), post. split; [reflexivity|].
        constructor; [exact E | exact F].
      * not_this_event.
Qed.

Lemma deliver_alias_asked cached st ua table key :
  In (ev_dict_lookup table key) (r_trace (deliver_alias cached st ua)) ->
  self_reference st = false /\ C.incr (level st) <= 100 /\
  key = local (msg_attr st) /\
  exists pre post, argv (alias_maps cached) = pre ++ table :: post /\
                   Forall (not_found key) pre.
Proof.
  intros H.
  destruct (self_reference st) eqn:S.
  - rewrite deliver_alias_short_circuit in H by exact S. destruct H.
  - destruct (Z_lt_dec 100 (C.incr (level st))) as [L|L].
    + rewrite deliver_alias_too_deep in H by assumption.
      cbn [r_trace] in H. not_this_event.
    + rewrite deliver_alias_scans in H by (try assumption; lia).
      apply alias_scan_asked in H. cbn in H.
      split; [reflexivity|]. split; [lia | exact H].
Qed.

(** The run once the table that decides it is known. *)

Lemma deliver_alias_at_match cached st ua pre table post text errno :
  self_reference st = false -> C.incr (level st) <= 100 ->
  argv (alias_maps cached) = pre ++ table :: post ->
  Forall (not_found (local (msg_attr st))) pre ->
  dict_lookup table (local (msg_attr st)) = (Some text, errno) ->
  deliver_alias cached st ua =
  emit (lookups (local (msg_attr st)) (pre ++ [table]))
       (alias_found (alias_maps cached) table text errno
                    (expanding (at_entry st)) ua).
Proof.
  intros S L A F E.
  rewrite deliver_alias_scans by assumption.
  rewrite A, alias_scan_skips by exact F.
  cbn [alias_scan expanding at_entry set_msg_attr set_exp_from set_level
       msg_attr local].
  rewrite E, emit_emit, lookups_app. reflexivity.
Qed.

Lemma deliver_alias_at_error cached st ua pre table post errno :
  self_reference st = false -> C.incr (level st) <= 100 ->
  argv (alias_maps cached) = pre ++ table :: post ->
  Forall (not_found (local (msg_attr st))) pre ->
  dict_lookup table (local (msg_attr st)) = (None, errno) -> errno <> 0 ->
  deliver_alias cached st ua =
  emit (lookups (local (msg_attr st)) (pre ++ [table]))
       {| r_exit := Return YES;
          r_status := Some (defer_append BOUNCE_FLAG_KEEP
                              (msg_attr (expanding (at_entry st)))
                              "alias database unavailable");
          r_trace := [ev_defer_append BOUNCE_FLAG_KEEP
                        (msg_attr (expanding (at_entry st)))
                        "alias database unavailable"];
          r_state := expanding (at_entry st); r_usr_attr := ua |}.
Proof.
  intros S L A F E N.
  rewrite deliver_alias_scans by assumption.
  rewrite A, alias_scan_skips by exact F.
  cbn [alias_scan expanding at_entry set_msg_attr set_exp_from set_level
       msg_attr local].
  rewrite E. apply Z.eqb_neq in N. rewrite N. cbn [negb].
  rewrite emit_emit, lookups_app. reflexivity.
Qed.

Lemma deliver_alias_all_missing cached st ua :
  self_reference st = false -> C.incr (level st) <= 100 ->
  Forall (not_found (local (msg_attr st))) (argv (alias_maps cached)) ->
  deliver_alias cached st ua =
  emit (lookups (local (msg_attr st)) (argv (alias_maps cached)))
       (alias_missing (expanding (at_entry st)) ua).
Proof.
  intros S L F.
  rewrite deliver_alias_scans by assumption.
  rewrite <- (app_nil_r (argv (alias_maps cached))) at 1.
  rewrite alias_scan_skips by exact F. reflexivity.
Qed.

Lemma alias_found_never_no maps table text errno st ua :
  r_exit (alias_found maps table text errno st ua) <> Return NO.
Proof.
  rights_cases table; try rewrite alias_deliver_returns; discriminate.
Qed.

Lemma alias_scan_returns_no maps (cpp : list string) st ua :
  r_exit (alias_scan maps cpp st ua) = Return NO ->
  Forall (not_found (local (msg_attr st))) cpp /\
  r_trace (alias_scan maps cpp st ua) = lookups (local (msg_attr st)) cpp.
Proof.
  induction cpp as [|t cpp IH]; simpl.
  - unfold alias_missing. destruct (reserved_name _); cbn [r_exit r_trace].
    + discriminate.
    + intros _. split; [constructor | reflexivity].
  - destruct (dict_lookup t (local (msg_attr st))) as [[text|] errno] eqn:E;
      cbn [emit r_exit r_trace app].
    + intros H. destruct (alias_found_never_no _ _ _ _ _ _ H).
    + destruct (errno =? 0) eqn:Z0; cbn [negb r_exit].
      * apply Z.eqb_eq in Z0. subst errno. intros H.
        destruct (IH H) as [F T]. split.
        -- constructor; [exact E | exact F].
        -- rewrite T. reflexivity.
      * discriminate.
Qed.

(** *** The steps after a match, in detail *)

Lemma alias_found_with_rights maps table text errno st ua rights :
  rights_for table ua = Some rights ->
  alias_found maps table text errno st ua =
  alias_deliver maps text errno
    (set_msg_attr st (set_exp_type (msg_attr st) EXPAND_TYPE_ALIAS)) rights.
Proof.
  unfold rights_for, alias_found.
  destruct (dict_owner table) as [uid|?|?]; try discriminate.
  destruct (uid =? 0).
  - intros [= <-]. reflexivity.
  - destruct (mypwuid uid) as [pwd|]; [|discriminate].
    intros [= <-]. reflexivity.
Qed.

Lemma alias_found_unknown_owner maps table text errno st ua uid :
  dict_owner table = owner_uid uid -> uid <> 0 -> mypwuid uid = None ->
  alias_found maps table text errno st ua =
  let attr := set_exp_type (msg_attr st) EXPAND_TYPE_ALIAS in
  {| r_exit := Return YES;
     r_status := Some (defer_append BOUNCE_FLAG_KEEP attr
                         "cannot find alias database owner");
     r_trace := [ev_msg_warn ("cannot find alias database owner for " ++ table);
                 ev_defer_append BOUNCE_FLAG_KEEP attr
                                 "cannot find alias database owner"];
     r_state := set_msg_attr st attr; r_usr_attr := ua |}.
Proof.
  intros O N P. unfold alias_found. rewrite O.
  apply Z.eqb_neq in N. rewrite N, P. reflexivity.
Qed.

Lemma alias_deliver_state maps text errno st ua :
  let s := r_state (alias_deliver maps text errno st ua) in
  level s = level st /\
  local (msg_attr s) = local (msg_attr st) /\
  recipient (msg_attr s) = recipient (msg_attr st) /\
  exp_type (msg_attr s) = exp_type (msg_attr st) /\
  exp_from (msg_attr s) = exp_from (msg_attr st) /\
  delivered (msg_attr s) = Some (recipient (msg_attr st)).
Proof. owner_cases maps st; repeat split. Qed.

Lemma alias_deliver_dispatches maps text errno st ua :
  errno_at_delivery maps st errno = 0 ->
  let r := alias_deliver maps text errno st ua in
  r_status r = Some (deliver_token_string (r_state r) ua text) /\
  exists probe,
    forallb is_maps_find probe = true /\
    r_trace r = probe ++ [ev_deliver_token_string (r_state r) ua text].
Proof.
  unfold errno_at_delivery.
  owner_cases maps st; cbn [snd]; intros E; subst;
    try discriminate Hzero;
    (split; [reflexivity|]);
    first [ exists []; split; reflexivity
          | eexists [_]; split; [|reflexivity]; reflexivity ].
Qed.

Lemma alias_deliver_defers maps text errno st ua :
  errno_at_delivery maps st errno <> 0 ->
  let r := alias_deliver maps text errno st ua in
  r_status r = Some (defer_append BOUNCE_FLAG_KEEP (msg_attr (r_state r))
                       "alias database unavailable") /\
  exists probe,
    forallb is_maps_find probe = true /\
    r_trace r = probe ++ [ev_defer_append BOUNCE_FLAG_KEEP
                            (msg_attr (r_state r))
                            "alias database unavailable"].
Proof.
  unfold errno_at_delivery.
  owner_cases maps st; cbn [snd]; intros E;
    try (apply Z.eqb_eq in Hzero; destruct (E Hzero));
    (split; [reflexivity|]);
    first [ exists []; split; reflexivity
          | eexists [_]; split; [|reflexivity]; reflexivity ].
Qed.

Lemma alias_deliver_owner maps text errno st ua :
  let r := alias_deliver maps text errno st ua in
  let candidate := ("owner-" ++ local (msg_attr st))%string in
  (var_ownreq_special = 0 ->
   owner (msg_attr (r_state r)) = None /\
   forall m k, ~ In (ev_maps_find m k) (r_trace r)) /\
  (var_ownreq_special <> 0 ->
   In (ev_maps_find maps candidate) (r_trace r) /\
   (forall found, fst (maps_find maps candidate) = Some found ->
      owner (msg_attr (r_state r)) = Some (canon_addr_internal candidate)) /\
   (fst (maps_find maps candidate) = None ->
      owner (msg_attr (r_state r)) = None)).
Proof.
  unfold alias_deliver, OWNER_ASSIGN.
  destruct (var_ownreq_special =? 0) eqn:V.
  - apply Z.eqb_eq in V. split; [|intros N; destruct (N V)].
    intros _. destruct (negb (errno =? 0));
      cbn [r_state r_trace msg_attr set_msg_attr owner set_delivered
           RESET_OWNER_ATTR app];
      (split; [reflexivity|]); intros m k H; not_this_event.
  - apply Z.eqb_neq in V. split; [intros Z0; destruct (V Z0)|].
    intros _.
    destruct (maps_find maps ("owner-" ++ local (msg_attr st))) as [[found|] e];
      destruct (negb (e =? 0));
      cbn [r_state r_trace msg_attr set_msg_attr owner set_delivered
           RESET_OWNER_ATTR SET_OWNER_ATTR app fst];
      (split; [left; reflexivity|]); split;
      solve [ reflexivity | discriminate | intros; reflexivity
            | intros ? [=] ].
Qed.

Lemma alias_deliver_last_call maps text errno st ua :
  let r := alias_deliver maps text errno st ua in
  exists calls,
    r_trace r = calls ++ [ev_deliver_token_string (r_state r) ua text] \/
    r_trace r = calls ++ [ev_defer_append BOUNCE_FLAG_KEEP (msg_attr (r_state r))
                            "alias database unavailable"].
Proof.
  owner_cases maps st;
    first [ exists []; (left + right); reflexivity
          | eexists [_]; (left + right); reflexivity ].
Qed.

Lemma in_lookups_not_dispatch key (l : list string) s u x :
  ~ In (ev_deliver_token_string s u x) (lookups key l).
Proof. intros H. apply lookups_only in H. destruct H as (t & _ & H). discriminate H. Qed.

Lemma in_lookups_not_maps_find key (l : list string) m k :
  ~ In (ev_maps_find m k) (lookups key l).
Proof. intros H. apply lookups_only in H. destruct H as (t & _ & H). discriminate H. Qed.

Lemma dispatches_probe (probe : list (event mypasswd)) :
  forallb is_maps_find probe = true -> dispatches probe = 0%nat.
Proof.
  induction probe as [|e probe IH]; [reflexivity|].
  cbn [forallb]. intros H. apply andb_prop in H. destruct H as [He Hp].
  destruct e; try discriminate He. exact (IH Hp).
Qed.

Lemma alias_found_level maps table text errno st ua :
  level (r_state (alias_found maps table text errno st ua)) = level st.
Proof.
  rights_cases table; try reflexivity;
    match goal with
    | |- context [alias_deliver ?m ?t ?e ?s ?u] =>
        destruct (alias_deliver_state m t e s u) as (Lv & _); exact Lv
    end.
Qed.

Lemma alias_scan_level maps (cpp : list string) st ua :
  level (r_state (alias_scan maps cpp st ua)) = level st.
Proof.
  induction cpp as [|t cpp IH]; simpl.
  - unfold alias_missing. destruct (reserved_name _); reflexivity.
  - destruct (dict_lookup t (local (msg_attr st))) as [[text|] errno];
      cbn [emit r_state].
    + apply alias_found_level.
    + destruct (errno =? 0); cbn [negb]; [exact IH | reflexivity].
Qed.
Lemma filter_none {A} (f : A -> bool) (l : list A) :
  (forall a, In a l -> f a = false) -> filter f l = [].
Proof.
  induction l as [|a l IH]; [reflexivity|].
  intros H. cbn [filter]. rewrite (H a) by (left; reflexivity).
  apply IH. intros b I. apply H. right. exact I.
Qed.

Lemma filter_lookups key (l : list string) :
  filter is_lookup (lookups key l) = lookups key l.
Proof.
  induction l as [|t l IH]; [reflexivity|].
  cbn [lookups map filter is_lookup]. f_equal. exact IH.
Qed.

Lemma alias_found_exp_type maps table text errno st ua :
  exp_type (msg_attr (r_state (alias_found maps table text errno st ua)))
  = EXPAND_TYPE_ALIAS.
Proof.
  rights_cases table; try reflexivity;
    match goal with
    | |- context [alias_deliver ?m ?t ?e ?s ?u] =>
        destruct (alias_deliver_state m t e s u) as (_ & _ & _ & T & _);
        exact T
    end.
Qed.

(** *** The claims *)

(** C1, as amended.  When the nesting depth after the increment on entry
    exceeds 100 and the self-reference test does not apply, [deliver_alias]
    warns about a possible alias database loop and reports it through
    [bounce_append], a bounce and not a deferral, with the flag
    BOUNCE_FLAG_KEEP; it stores the result of that call as the status and
    returns YES.  No table is asked. *)
Theorem depth_guard_bounces cached st ua :
  self_reference st = false ->
  100 < C.incr (level st) ->
  let r := deliver_alias cached st ua in
  let why := ("possible alias database loop for "
              ++ local (msg_attr st))%string in
  r_exit r = Return YES /\
  r_status r = Some (bounce_append BOUNCE_FLAG_KEEP (msg_attr st) why) /\
  r_trace r = [ev_msg_warn why;
               ev_bounce_append BOUNCE_FLAG_KEEP (msg_attr st) why].
Proof.
  intros S L r why. subst r.
  rewrite deliver_alias_too_deep by assumption.
  repeat split.
Qed.

(** C2.  A lookup error while an alias is resolved defers the message.
    When a table that is asked for the recipient name answers with a
    lookup error (a null result with [dict_errno] set, lines 276-280),
    [deliver_alias] stores the result of [defer_append] with the text
    "alias database unavailable" as the status and returns YES; the tables
    before it were asked in order, the failing table is the last one
    asked, and the deferral is the last call.  When a table has the name
    and the rights for it are chosen, but [dict_errno] is set at the
    point of delivery (lines 257-261: the owner probe ran into a table
    that is unavailable), the outcome is the same deferral: it is the
    last call, [deliver_token_string] is not called, and no further table
    is asked for the name. *)
Theorem lookup_error_defers cached st ua table :
  let r := deliver_alias cached st ua in
  let key := local (msg_attr st) in
  let maps := alias_maps cached in
  let why := "alias database unavailable"%string in
  In (ev_dict_lookup table key) (r_trace r) ->
  (forall errno,
     dict_lookup table key = (None, errno) ->
     errno <> 0 ->
     let attr := set_exp_from (msg_attr st) (Some key) in
     r_exit r = Return YES /\
     r_status r = Some (defer_append BOUNCE_FLAG_KEEP attr why) /\
     exists pre post,
       argv maps = pre ++ table :: post /\
       Forall (not_found key) pre /\
       r_trace r = lookups key (pre ++ [table])
                   ++ [ev_defer_append BOUNCE_FLAG_KEEP attr why]) /\
  (forall text errno rights,
     dict_lookup table key = (Some text, errno) ->
     rights_for table ua = Some rights ->
     errno_at_delivery maps st errno <> 0 ->
     let attr := msg_attr (r_state r) in
     r_exit r = Return YES /\
     r_status r = Some (defer_append BOUNCE_FLAG_KEEP attr why) /\
     dispatches (r_trace r) = 0%nat /\
     exists pre post probe,
       argv maps = pre ++ table :: post /\
       Forall (not_found key) pre /\
       forallb is_maps_find probe = true /\
       r_trace r = lookups key (pre ++ [table]) ++ probe
                   ++ [ev_defer_append BOUNCE_FLAG_KEEP attr why]).
Proof.
  intros r key maps why I. subst r.
  destruct (deliver_alias_asked _ _ _ _ _ I)
    as (S & L & _ & pre & post & A & F).
  split.
  - intros errno E N attr.
    rewrite (deliver_alias_at_error cached st ua pre table post errno)
      by assumption.
    split; [reflexivity|]. split; [reflexivity|].
    exists pre, post. split; [exact A|]. split; [exact F | reflexivity].
  - intros text errno rights E R N.
    rewrite (deliver_alias_at_match cached st ua pre table post text errno)
      by assumption.
    rewrite (alias_found_with_rights _ _ _ _ _ _ _ R).
    set (st1 := set_msg_attr (expanding (at_entry st)) _).
    pose proof (alias_deliver_defers maps text errno st1 rights N) as Hd.
    cbv zeta in Hd. destruct Hd as (Hst & probe & Hp & Htr).
    cbn [emit r_exit r_status r_trace r_state].
    split; [apply alias_deliver_returns|]. split; [exact Hst|].
    fold maps. rewrite Htr. split.
    + rewrite !dispatches_app, dispatches_lookups, (dispatches_probe _ Hp).
      reflexivity.
    + exists pre, post, probe. repeat split; assumption.
Qed.

(** C3, as amended.  When the self-reference test does not apply, the
    nesting depth after the increment is at most 100, and every table says
    without error that it does not have the recipient name: every table is
    asked once, in order; for a name other than the two reserved ones the
    call returns NO and stores no status; for a reserved name (compared
    without regard to case) it warns, stores the result of [sent] with the
    text "discarded" as the status and returns YES. *)
Theorem no_alias_found cached st ua :
  self_reference st = false ->
  C.incr (level st) <= 100 ->
  Forall (not_found (local (msg_attr st))) (argv (alias_maps cached)) ->
  let r := deliver_alias cached st ua in
  let key := local (msg_attr st) in
  let attr := set_exp_from (msg_attr st) (Some key) in
  (reserved_name key = false ->
   r_exit r = Return NO /\ r_status r = None /\
   r_trace r = lookups key (argv (alias_maps cached))) /\
  (reserved_name key = true ->
   r_exit r = Return YES /\
   r_status r = Some (sent attr "discarded") /\
   r_trace r = lookups key (argv (alias_maps cached))
               ++ [ev_msg_warn ("required alias not found: " ++ key);
                   ev_sent attr "discarded"]).
Proof.
  intros S L F r key attr. subst r.
  rewrite deliver_alias_all_missing by assumption.
  unfold alias_missing.
  change (local (msg_attr (expanding (at_entry st)))) with key.
  split; intros R; rewrite R; cbn [emit r_exit r_status r_trace].
  - rewrite app_nil_r. repeat split.
  - repeat split.
Qed.

(** C4.  When [exp_from] is set and equals the local recipient name up to
    letter case, [deliver_alias] returns NO at once, whatever the nesting
    depth: no status is stored, nothing is logged or reported, and no
    table is asked.  An alias that lists its own name thus falls through to
    delivery to the user. *)
Theorem self_reference_returns_no cached st ua from :
  exp_from (msg_attr st) = Some from ->
  C.strcasecmp from (local (msg_attr st)) = 0 ->
  let r := deliver_alias cached st ua in
  r_exit r = Return NO /\ r_status r = None /\ r_trace r = [].
Proof.
  intros F E r. subst r.
  rewrite deliver_alias_short_circuit.
  - repeat split.
  - apply self_reference_spec. exists from. split; assumption.
Qed.

(** C5, as amended.  The tables are asked for the recipient name in the
    configured order.  At the first table that has the name the expansion
    type becomes EXPAND_TYPE_ALIAS and no later table is asked for the
    name.  If the rights for that table can be chosen (it belongs to uid 0,
    or its owner is in the password database), the delivered attribute
    becomes the recipient and the call returns YES.  If moreover
    [dict_errno] is zero after the owner probe, the text found in that
    table is handed to [deliver_token_string] exactly once, in the state
    just described, and the result of that call is stored as the status. *)
Theorem first_match_is_delivered cached st ua table text errno :
  let r := deliver_alias cached st ua in
  let key := local (msg_attr st) in
  In (ev_dict_lookup table key) (r_trace r) ->
  dict_lookup table key = (Some text, errno) ->
  exp_type (msg_attr (r_state r)) = EXPAND_TYPE_ALIAS /\
  (exists pre post,
     argv (alias_maps cached) = pre ++ table :: post /\
     Forall (not_found key) pre /\
     filter is_lookup (r_trace r) = lookups key (pre ++ [table])) /\
  forall rights, rights_for table ua = Some rights ->
    r_exit r = Return YES /\
    delivered (msg_attr (r_state r)) = Some (recipient (msg_attr st)) /\
    r_usr_attr r = rights /\
    (errno_at_delivery (alias_maps cached) st errno = 0 ->
     r_status r = Some (deliver_token_string (r_state r) rights text) /\
     dispatches (r_trace r) = 1%nat /\
     exists calls probe,
       filter is_lookup calls = calls /\
       forallb is_maps_find probe = true /\
       r_trace r = calls ++ probe
                   ++ [ev_deliver_token_string (r_state r) rights text]).
Proof.
  intros r key I E. subst r.
  destruct (deliver_alias_asked _ _ _ _ _ I)
    as (S & L & _ & pre & post & A & F).
  rewrite (deliver_alias_at_match cached st ua pre table post text errno)
    by assumption.
  cbn [emit r_exit r_status r_trace r_state r_usr_attr].
  split; [apply alias_found_exp_type|]. split.
  - exists pre, post. split; [exact A|]. split; [exact F|].
    rewrite filter_app, filter_lookups.
    rewrite (filter_none is_lookup); [apply app_nil_r|].
    intros e. apply alias_found_asks_no_table.
  - intros rights R. rewrite (alias_found_with_rights _ _ _ _ _ _ _ R).
    set (st1 := set_msg_attr (expanding (at_entry st)) _).
    pose proof (alias_deliver_state (alias_maps cached) text errno st1 rights)
      as Hs.
    cbv zeta in Hs. destruct Hs as (_ & _ & _ & _ & _ & Hdel).
    split; [apply alias_deliver_returns|]. split; [exact Hdel|].
    split; [apply alias_deliver_keeps_rights|].
    intros Z0.
    pose proof (alias_deliver_dispatches (alias_maps cached) text errno st1
                  rights Z0) as Hd.
    cbv zeta in Hd. destruct Hd as (Hst & probe & Hp & Htr).
    split; [exact Hst|]. rewrite Htr. split.
    + rewrite !dispatches_app, dispatches_lookups, (dispatches_probe _ Hp).
      reflexivity.
    + exists (lookups key (pre ++ [table])), probe.
      split; [apply filter_lookups|]. split; [exact Hp | reflexivity].
Qed.

(** C6.  When the table in which the alias is found belongs to uid 0
    (as [dict_owner] reports it), the user attributes of the call are the
    default rights from then on, whichever table it is and whatever rights
    the caller passed in: every call of [deliver_token_string] that follows
    receives the default rights. *)
Theorem root_owned_source_gives_default_rights cached st ua table text errno :
  let r := deliver_alias cached st ua in
  let key := local (msg_attr st) in
  In (ev_dict_lookup table key) (r_trace r) ->
  dict_lookup table key = (Some text, errno) ->
  dict_owner table = owner_uid 0 ->
  r_exit r = Return YES /\
  r_usr_attr r = default_rights /\
  forall s u x, In (ev_deliver_token_string s u x) (r_trace r) ->
                u = default_rights.
Proof.
  intros r key I E O. subst r.
  destruct (deliver_alias_asked _ _ _ _ _ I)
    as (S & L & _ & pre & post & A & F).
  assert (R : rights_for table ua = Some default_rights)
    by (unfold rights_for; rewrite O; reflexivity).
  rewrite (deliver_alias_at_match cached st ua pre table post text errno)
    by assumption.
  rewrite (alias_found_with_rights _ _ _ _ _ _ _ R).
  cbn [emit r_exit r_trace r_usr_attr].
  split; [apply alias_deliver_returns|].
  split; [apply alias_deliver_keeps_rights|].
  intros s u x H. apply in_app_or in H. destruct H as [H|H].
  - destruct (in_lookups_not_dispatch _ _ _ _ _ H).
  - apply alias_deliver_dispatch_rights in H. apply H.
Qed.

(** C7.  When the table in which the alias is found belongs to an account
    other than uid 0 that the password database does not know,
    [deliver_alias] warns, stores the result of [defer_append] with the
    text "cannot find alias database owner" as the status and returns YES.
    [deliver_token_string] is not called, and the user attributes are left
    as the caller passed them: there is no fall-back to the default
    rights. *)
Theorem unknown_owner_defers cached st ua table text errno uid :
  let r := deliver_alias cached st ua in
  let key := local (msg_attr st) in
  let attr := set_exp_type (set_exp_from (msg_attr st) (Some key))
                           EXPAND_TYPE_ALIAS in
  In (ev_dict_lookup table key) (r_trace r) ->
  dict_lookup table key = (Some text, errno) ->
  dict_owner table = owner_uid uid ->
  uid <> 0 ->
  mypwuid uid = None ->
  r_exit r = Return YES /\
  r_status r = Some (defer_append BOUNCE_FLAG_KEEP attr
                       "cannot find alias database owner") /\
  dispatches (r_trace r) = 0%nat /\
  r_usr_attr r = ua /\
  exists pre post,
    argv (alias_maps cached) = pre ++ table :: post /\
    Forall (not_found key) pre /\
    r_trace r =
      lookups key (pre ++ [table])
      ++ [ev_msg_warn ("cannot find alias database owner for " ++ table);
          ev_defer_append BOUNCE_FLAG_KEEP attr
                          "cannot find alias database owner"].
Proof.
  intros r key attr I E O N P. subst r.
  destruct (deliver_alias_asked _ _ _ _ _ I)
    as (S & L & _ & pre & post & A & F).
  rewrite (deliver_alias_at_match cached st ua pre table post text errno)
    by assumption.
  rewrite (alias_found_unknown_owner _ _ _ _ _ _ uid) by assumption.
  cbn [emit r_exit r_status r_trace r_usr_attr].
  split; [reflexivity|]. split; [reflexivity|]. split.
  - rewrite dispatches_app, dispatches_lookups. reflexivity.
  - split; [reflexivity|]. exists pre, post.
    split; [exact A|]. split; [exact F | reflexivity].
Qed.

(** C8, as amended.  On every alias match for which the rights could be
    chosen (the table belongs to uid 0, or its owner is in the password
    database): with owner_request_special switched off the owner attribute
    is reset and no owner probe is made; otherwise the name "owner-"
    followed by the local name is looked up with [maps_find] in the very
    list of tables that is scanned for the recipient, and the owner
    attribute becomes the canonical form of that name when it is found and
    is reset when it is not.  The state with this owner attribute is the
    one in effect for the delivery or deferral that ends the call. *)
Theorem owner_attribute_after_match cached st ua table text errno rights :
  let r := deliver_alias cached st ua in
  let key := local (msg_attr st) in
  let maps := alias_maps cached in
  let candidate := ("owner-" ++ key)%string in
  In (ev_dict_lookup table key) (r_trace r) ->
  dict_lookup table key = (Some text, errno) ->
  rights_for table ua = Some rights ->
  (var_ownreq_special = 0 ->
   owner (msg_attr (r_state r)) = None /\
   forall m k, ~ In (ev_maps_find m k) (r_trace r)) /\
  (var_ownreq_special <> 0 ->
   In (ev_maps_find maps candidate) (r_trace r) /\
   (forall found, fst (maps_find maps candidate) = Some found ->
      owner (msg_attr (r_state r)) = Some (canon_addr_internal candidate)) /\
   (fst (maps_find maps candidate) = None ->
      owner (msg_attr (r_state r)) = None)) /\
  (exists calls,
     r_trace r = calls ++ [ev_deliver_token_string (r_state r) rights text] \/
     r_trace r = calls ++ [ev_defer_append BOUNCE_FLAG_KEEP
                             (msg_attr (r_state r))
                             "alias database unavailable"]).
Proof.
  intros r key maps candidate I E R. subst r.
  destruct (deliver_alias_asked _ _ _ _ _ I)
    as (S & L & _ & pre & post & A & F).
  rewrite (deliver_alias_at_match cached st ua pre table post text errno)
    by assumption.
  rewrite (alias_found_with_rights _ _ _ _ _ _ _ R).
  set (st1 := set_msg_attr (expanding (at_entry st)) _).
  pose proof (alias_deliver_owner maps text errno st1 rights) as Ho.
  pose proof (alias_deliver_last_call maps text errno st1 rights) as Hl.
  cbv zeta in Ho, Hl.
  change (local (msg_attr st1)) with key in Ho. fold candidate in Ho.
  destruct Ho as [Hoff Hon]. destruct Hl as [calls Hl].
  cbn [emit r_trace r_state]. fold maps.
  split; [|split].
  - intros V. destruct (Hoff V) as [Own No]. split; [exact Own|].
    intros m k H. apply in_app_or in H. destruct H as [H|H].
    + exact (in_lookups_not_maps_find _ _ _ _ H).
    + exact (No m k H).
  - intros V. destruct (Hon V) as (Asked & Found & Missing).
    split; [|split; assumption].
    apply in_or_app. right. exact Asked.
  - exists (lookups key (pre ++ [table]) ++ calls).
    rewrite <- !app_assoc.
    destruct Hl as [Hl|Hl]; rewrite Hl; [left | right]; reflexivity.
Qed.

(** C10.  With a null [exp_from] the self-reference test is skipped.  The
    call goes on to the depth check, and past it to the scan of the tables
    in order.  It returns NO only after every table has been asked and none
    had the name; in particular it does not return NO when some table maps
    the name to itself. *)
Theorem null_exp_from_is_not_short_circuited cached st ua :
  exp_from (msg_attr st) = None ->
  let r := deliver_alias cached st ua in
  let key := local (msg_attr st) in
  let tables := argv (alias_maps cached) in
  (100 < C.incr (level st) ->
   r_exit r = Return YES /\
   exists why, r_trace r = [ev_msg_warn why;
                            ev_bounce_append BOUNCE_FLAG_KEEP (msg_attr st) why]) /\
  (C.incr (level st) <= 100 ->
   r = alias_scan (alias_maps cached) tables (expanding (at_entry st)) ua /\
   forall table rest, tables = table :: rest ->
     exists calls, r_trace r = ev_dict_lookup table key :: calls) /\
  (r_exit r = Return NO ->
   r_trace r = lookups key tables /\ Forall (not_found key) tables) /\
  (forall table, In table tables ->
     fst (dict_lookup table key) = Some key -> r_exit r <> Return NO).
Proof.
  intros N r key tables.
  assert (S : self_reference st = false)
    by (unfold self_reference; rewrite N; reflexivity).
  assert (No : r_exit r = Return NO ->
               r_trace r = lookups key tables /\ Forall (not_found key) tables).
  { subst r. intros H.
    destruct (Z_lt_dec 100 (C.incr (level st))) as [L|L].
    - rewrite deliver_alias_too_deep in H by assumption. discriminate H.
    - rewrite deliver_alias_scans in * by (try assumption; lia).
      apply alias_scan_returns_no in H. destruct H as [F T].
      split; [exact T | exact F]. }
  split; [|split; [|split]].
  - intros L. subst r. rewrite deliver_alias_too_deep by assumption.
    split; [reflexivity|]. eexists. reflexivity.
  - intros L. subst r. rewrite deliver_alias_scans by assumption.
    split; [reflexivity|]. intros table rest T. fold tables. rewrite T.
    cbn [alias_scan].
    change (local (msg_attr (expanding (at_entry st)))) with key.
    destruct (dict_lookup table key) as [found errno].
    eexists. reflexivity.
  - exact No.
  - intros table I Self H. destruct (No H) as [_ F].
    rewrite Forall_forall in F. specialize (F table I).
    unfold not_found in F. rewrite F in Self. discriminate Self.
Qed.

(** ** Further properties of [deliver_alias] and [dict_owner] *)

(** *** Every run, by the path it takes *)

(** The deferral of lines 276-280. *)
Definition unavailable (state : LOCAL_STATE) (usr_attr : USER_ATTR mypasswd)
  : run mypasswd :=
  {| r_exit := Return YES;
     r_status := Some (defer_append BOUNCE_FLAG_KEEP (msg_attr state)
                         "alias database unavailable");
     r_trace := [ev_defer_append BOUNCE_FLAG_KEEP (msg_attr state)
                   "alias database unavailable"];
     r_state := state; r_usr_attr := usr_attr |}.

(** The results of the calls that report or deliver, oldest first. *)
Definition result_of (e : event mypasswd) : list Z :=
  match e with
  | ev_bounce_append flags attr why => [bounce_append flags attr why]
  | ev_defer_append flags attr why => [defer_append flags attr why]
  | ev_sent attr why => [sent attr why]
  | ev_deliver_token_string state usr_attr expansion =>
      [deliver_token_string state usr_attr expansion]
  | _ => []
  end.

Definition results (trace : list (event mypasswd)) : list Z :=
  flat_map result_of trace.

(** Two states that differ at most in what an expansion overwrites: the
    owner, the delivered attribute, the expansion type and [exp_from]. *)
Definition same_request (st st' : LOCAL_STATE) : Prop :=
  level st = level st' /\
  sender (msg_attr st) = sender (msg_attr st') /\
  recipient (msg_attr st) = recipient (msg_attr st') /\
  local (msg_attr st) = local (msg_attr st').


Lemma alias_scan_cases maps (cpp : list string) st ua :
  let key := local (msg_attr st) in
  (Forall (not_found key) cpp /\
   alias_scan maps cpp st ua = emit (lookups key cpp) (alias_missing st ua)) \/
  (exists pre table post errno,
     cpp = pre ++ table :: post /\ Forall (not_found key) pre /\
     dict_lookup table key = (None, errno) /\ errno <> 0 /\
     alias_scan maps cpp st ua
     = emit (lookups key (pre ++ [table])) (unavailable st ua)) \/
  (exists pre table post text errno,
     cpp = pre ++ table :: post /\ Forall (not_found key) pre /\
     dict_lookup table key = (Some text, errno) /\
     alias_scan maps cpp st ua
     = emit (lookups key (pre ++ [table]))
            (alias_found maps table text errno st ua)).
Proof.
  intros key. induction cpp as [|t cpp IH].
  - left. split; [constructor|]. symmetry. apply emit_nil.
  - cbn [alias_scan]. fold key.
    destruct (dict_lookup t key) as [[text|] errno] eqn:E.
    + right. right. exists [], t, cpp, text, errno.
      split; [reflexivity|]. split; [constructor|]. split; [exact E|].
      reflexivity.
    + destruct (errno =? 0) eqn:Z0; cbn [negb].
      * apply Z.eqb_eq in Z0. subst errno.
        assert (Ht : not_found key t) by exact E.
        destruct IH as [(F & ->) | [(pre & table & post & e & -> & F & L & N & ->)
                       | (pre & table & post & text & e & -> & F & L & ->)]].
        -- left. split; [constructor; assumption|].
           rewrite emit_emit. reflexivity.
        -- right. left. exists (t :: pre), table, post, e.
           split; [reflexivity|]. split; [constructor; assumption|].
           split; [exact L|]. split; [exact N|].
           rewrite emit_emit. reflexivity.
        -- right. right. exists (t :: pre), table, post, text, e.
           split; [reflexivity|]. split; [constructor; assumption|].
           split; [exact L|].
           rewrite emit_emit. reflexivity.
      * apply Z.eqb_neq in Z0. right. left. exists [], t, cpp, errno.
        split; [reflexivity|]. split; [constructor|]. split; [exact E|].
        split; [exact Z0|]. reflexivity.
Qed.

(** Splits a goal about [deliver_alias cached st ua] into the five paths:
    short circuit, too deep, no table has the name, a table fails, a
    table has the name. *)
Ltac by_path cached st ua :=
  destruct (self_reference st) eqn:?Hself;
  [ rewrite (deliver_alias_short_circuit cached st ua) in * by assumption
  | destruct (Z_lt_dec 100 (C.incr (level st))) as [?Hdeep|?Hdeep];
    [ rewrite (deliver_alias_too_deep cached st ua) in * by assumption
    | apply Z.nlt_ge in Hdeep;
      rewrite (deliver_alias_scans cached st ua) in * by assumption;
      destruct (alias_scan_cases (alias_maps cached)
                  (argv (alias_maps cached)) (expanding (at_entry st)) ua)
        as [(?Hnone & ?Hrun)
           | [(?pre & ?table & ?post & ?errno & ?Hargv & ?Hpre & ?Hlook
               & ?Herr & ?Hrun)
             | (?pre & ?table & ?post & ?text & ?errno & ?Hargv & ?Hpre
                & ?Hlook & ?Hrun)]];
      rewrite Hrun in *; clear Hrun;
      change (local (msg_attr (expanding (at_entry st))))
        with (local (msg_attr st)) in * ] ].

Lemma prefix_asked (pre post : list string) (table : string) :
  firstn (List.length (pre ++ [table])) (pre ++ table :: post) = pre ++ [table].
Proof.
  replace (pre ++ table :: post) with ((pre ++ [table]) ++ post)
    by (rewrite <- app_assoc; reflexivity).
  rewrite firstn_app, firstn_all, Nat.sub_diag, firstn_O. apply app_nil_r.
Qed.

Lemma asked_in_lookups key (l : list string) table :
  In table l -> In (ev_dict_lookup table key) (lookups key l).
Proof. intros I. unfold lookups. apply in_map_iff. exists table. split; [reflexivity | exact I]. Qed.

Lemma results_app (l l' : list (event mypasswd)) :
  results (l ++ l') = results l ++ results l'.
Proof. unfold results. apply flat_map_app. Qed.

Lemma results_lookups key (l : list string) : results (lookups key l) = [].
Proof. induction l as [|t l IH]; [reflexivity | exact IH]. Qed.

Lemma alias_found_asks_nothing maps table text errno st ua :
  filter is_lookup (r_trace (alias_found maps table text errno st ua)) = [].
Proof. apply filter_none. intros e. apply alias_found_asks_no_table. Qed.

Lemma alias_missing_asks_nothing st ua :
  filter is_lookup (r_trace (alias_missing st ua)) = [].
Proof. apply filter_none. intros e. apply alias_missing_asks_no_table. Qed.

Lemma alias_deliver_status maps text errno st ua :
  exists s, r_status (alias_deliver maps text errno st ua) = Some s.
Proof. owner_cases maps st; eexists; reflexivity. Qed.

Lemma alias_found_status maps table text errno st ua :
  let r := alias_found maps table text errno st ua in
  match r_exit r with
  | Return v => v = YES /\ exists s, r_status r = Some s
  | _ => r_status r = None
  end.
Proof.
  rights_cases table;
    try rewrite alias_deliver_returns;
    try (split; [reflexivity | apply alias_deliver_status]);
    try (split; [reflexivity | eexists; reflexivity]);
    reflexivity.
Qed.

Lemma alias_deliver_results maps text errno st ua :
  let r := alias_deliver maps text errno st ua in
  results (r_trace r) = match r_status r with Some v => [v] | None => [] end.
Proof. owner_cases maps st; reflexivity. Qed.

Lemma alias_found_results maps table text errno st ua :
  let r := alias_found maps table text errno st ua in
  results (r_trace r) = match r_status r with Some v => [v] | None => [] end.
Proof. rights_cases table; try apply alias_deliver_results; reflexivity. Qed.

Lemma not_all_missing key (pre post : list string) table found errno :
  dict_lookup table key = (found, errno) ->
  found <> None \/ errno <> 0 ->
  ~ Forall (not_found key) (pre ++ table :: post).
Proof.
  intros L D F. rewrite Forall_forall in F.
  assert (I : In table (pre ++ table :: post))
    by (apply in_or_app; right; left; reflexivity).
  specialize (F table I). unfold not_found in F. rewrite F in L.
  injection L as <- <-. destruct D as [D|D]; apply D; reflexivity.
Qed.

(** *** The further properties *)

(** X1.  The value returned and the status go together on every path: the
    call returns YES or NO and nothing else; it has stored a status exactly
    when it returns YES; and when the process is stopped in [dict_owner]
    no status has been stored. *)
Theorem status_follows_exit cached st ua :
  let r := deliver_alias cached st ua in
  match r_exit r with
  | Return v => (v = YES /\ exists s, r_status r = Some s) \/
                (v = NO /\ r_status r = None)
  | Panic _ | Fatal _ => r_status r = None
  end.
Proof.
  intros r. subst r. by_path cached st ua;
    cbn [emit r_exit r_status].
  - right. split; reflexivity.
  - left. split; [reflexivity | eexists; reflexivity].
  - unfold alias_missing. destruct (reserved_name _); cbn [r_exit r_status].
    + left. split; [reflexivity | eexists; reflexivity].
    + right. split; reflexivity.
  - left. split; [reflexivity | eexists; reflexivity].
  - pose proof (alias_found_status (alias_maps cached) table text errno
                  (expanding (at_entry st)) ua) as H.
    cbv zeta in H.
    destruct (r_exit (alias_found _ _ _ _ _ _)); [left|..]; exact H.
Qed.

(** X2.  The status is the result of the one call that reports or
    delivers: among [bounce_append], [defer_append], [sent] and
    [deliver_token_string] at most one call is made in a run, its result is
    what is stored in the status, and when no status is stored none of
    them has been called. *)
Theorem status_is_the_only_result cached st ua :
  let r := deliver_alias cached st ua in
  results (r_trace r) =
  match r_status r with Some v => [v] | None => [] end.
Proof.
  intros r. subst r. by_path cached st ua;
    cbn [emit r_status r_trace];
    try rewrite results_app, results_lookups; cbn [app].
  - reflexivity.
  - reflexivity.
  - unfold alias_missing. destruct (reserved_name _); reflexivity.
  - reflexivity.
  - apply alias_found_results.
Qed.

(** X3.  The dictionary lookups of a run come first, they are all for the
    local name of the recipient, and the tables asked are an initial
    segment of the configured list, each asked once and in order: no table
    is skipped, asked twice or asked out of turn. *)
Theorem tables_asked_form_a_prefix cached st ua :
  let r := deliver_alias cached st ua in
  let key := local (msg_attr st) in
  let tables := argv (alias_maps cached) in
  exists n calls,
    (n <= List.length tables)%nat /\
    r_trace r = lookups key (firstn n tables) ++ calls /\
    filter is_lookup calls = [].
Proof.
  intros r key tables. subst r. by_path cached st ua;
    cbn [emit r_trace]; fold key; fold tables.
  - exists 0%nat, []. split; [apply Nat.le_0_l|]. split; reflexivity.
  - exists 0%nat. eexists. split; [apply Nat.le_0_l|]. split; reflexivity.
  - exists (List.length tables). eexists. split; [apply Nat.le_refl|].
    rewrite firstn_all. split; [reflexivity|].
    apply alias_missing_asks_nothing.
  - exists (List.length (pre ++ [table])). eexists. fold tables in Hargv.
    split; [rewrite Hargv, !length_app; cbn; lia|].
    rewrite Hargv, prefix_asked. split; reflexivity.
  - exists (List.length (pre ++ [table])). eexists. fold tables in Hargv.
    split; [rewrite Hargv, !length_app; cbn; lia|].
    rewrite Hargv, prefix_asked. split; [reflexivity|].
    apply alias_found_asks_nothing.
Qed.

(** X4.  The call returns NO, which sends the message on to delivery to
    the user, in two situations only: the name is reached from its own
    expansion; or the nesting is not too deep, every table says without
    error that it does not have the name, and the name is not a reserved
    one.  In particular it never returns NO once a table has the name or
    has failed. *)
Theorem returns_no_iff cached st ua :
  let key := local (msg_attr st) in
  r_exit (deliver_alias cached st ua) = Return NO <->
  self_reference st = true \/
  (C.incr (level st) <= 100 /\
   Forall (not_found key) (argv (alias_maps cached)) /\
   reserved_name key = false).
Proof.
  intros key. by_path cached st ua; cbn [emit r_exit]; fold key.
  - split; [intros _; left; reflexivity | reflexivity].
  - split; [discriminate|].
    intros [H|(H & _)]; [discriminate H | lia].
  - unfold alias_missing.
    change (local (msg_attr (expanding (at_entry st)))) with key.
    destruct (reserved_name key) eqn:R; cbn [r_exit].
    + split; [discriminate|].
      intros [H|(_ & _ & H)]; discriminate H.
    + split; [|reflexivity]. intros _. right.
      split; [exact Hdeep|]. split; [exact Hnone | reflexivity].
  - split; [discriminate|].
    intros [H|(_ & F & _)]; [discriminate H|].
    rewrite Hargv in F.
    destruct (not_all_missing _ _ _ _ _ _ Hlook (or_intror Herr) F).
  - split.
    + intros H. destruct (alias_found_never_no _ _ _ _ _ _ H).
    + intros [H|(_ & F & _)]; [discriminate H|].
      rewrite Hargv in F.
      assert (D : Some text <> None \/ errno <> 0) by (left; discriminate).
      destruct (not_all_missing _ _ _ _ _ _ Hlook D F).
Qed.

(** The state with the expansion type set (line 201), the run of lines
    216-220, and a run that [dict_owner] stops. *)
Definition marked (state : LOCAL_STATE) : LOCAL_STATE :=
  set_msg_attr state (set_exp_type (msg_attr state) EXPAND_TYPE_ALIAS).

Definition owner_missing (table : string) (state : LOCAL_STATE)
    (usr_attr : USER_ATTR mypasswd) : run mypasswd :=
  {| r_exit := Return YES;
     r_status := Some (defer_append BOUNCE_FLAG_KEEP (msg_attr state)
                         "cannot find alias database owner");
     r_trace := [ev_msg_warn ("cannot find alias database owner for " ++ table);
                 ev_defer_append BOUNCE_FLAG_KEEP (msg_attr state)
                                 "cannot find alias database owner"];
     r_state := state; r_usr_attr := usr_attr |}.

Definition stopped (how : exit) (state : LOCAL_STATE)
    (usr_attr : USER_ATTR mypasswd) : run mypasswd :=
  {| r_exit := how; r_status := None; r_trace := [];
     r_state := state; r_usr_attr := usr_attr |}.

Lemma alias_found_cases maps table text errno st ua :
  (exists rights,
     rights_for table ua = Some rights /\
     alias_found maps table text errno st ua
     = alias_deliver maps text errno (marked st) rights) \/
  (exists uid,
     dict_owner table = owner_uid uid /\ uid <> 0 /\ mypwuid uid = None /\
     alias_found maps table text errno st ua
     = owner_missing table (marked st) ua) \/
  (exists why,
     dict_owner table = owner_panic why /\
     alias_found maps table text errno st ua = stopped (Panic why) (marked st) ua) \/
  (exists why,
     dict_owner table = owner_fatal why /\
     alias_found maps table text errno st ua = stopped (Fatal why) (marked st) ua).
Proof.
  unfold rights_for, alias_found.
  destruct (dict_owner table) as [uid|why|why].
  - destruct (uid =? 0) eqn:R.
    + left. eexists. split; reflexivity.
    + apply Z.eqb_neq in R. destruct (mypwuid uid) as [pwd|] eqn:P.
      * left. eexists. split; reflexivity.
      * right. left. exists uid. repeat split; assumption.
  - right. right. left. exists why. split; reflexivity.
  - right. right. right. exists why. split; reflexivity.
Qed.

(** Splits the path on which a table has the name further, by what
    [dict_owner] and the password database say. *)
Ltac by_owner maps table text errno st ua :=
  destruct (alias_found_cases maps table text errno st ua)
    as [(?rights & ?Hrights & ?Hrun)
       | [(?uid & ?Howner & ?Hnotroot & ?Hpwd & ?Hrun)
         | [(?why & ?Howner & ?Hrun) | (?why & ?Howner & ?Hrun)]]];
  rewrite Hrun in *; clear Hrun.

Lemma alias_deliver_dispatch_state maps text errno st ua s u x :
  In (ev_deliver_token_string s u x)
     (r_trace (alias_deliver maps text errno st ua)) ->
  s = r_state (alias_deliver maps text errno st ua) /\ u = ua /\ x = text /\
  errno_at_delivery maps st errno = 0.
Proof.
  unfold errno_at_delivery.
  owner_cases maps st; cbn [snd]; intros H; not_this_event;
    injection H as <- <- <-; apply Z.eqb_eq in Hzero;
    repeat split; assumption.
Qed.

Lemma alias_deliver_reports maps text errno st ua :
  let r := alias_deliver maps text errno st ua in
  (forall flags attr why, ~ In (ev_bounce_append flags attr why) (r_trace r)) /\
  (forall attr why, ~ In (ev_sent attr why) (r_trace r)) /\
  (forall flags attr why,
     In (ev_defer_append flags attr why) (r_trace r) ->
     flags = BOUNCE_FLAG_KEEP /\ attr = msg_attr (r_state r) /\
     why = "alias database unavailable"%string /\
     errno_at_delivery maps st errno <> 0).
Proof.
  unfold errno_at_delivery.
  owner_cases maps st; cbn [snd]; apply Z.eqb_neq in Hzero || clear Hzero;
    (split; [intros ? ? ? H; not_this_event|]);
    (split; [intros ? ? H; not_this_event|]);
    intros ? ? ? H; not_this_event;
    injection H as <- <- <-; repeat split; assumption.
Qed.

Lemma alias_deliver_probe maps text errno st ua :
  let r := alias_deliver maps text errno st ua in
  (List.length (filter is_maps_find (r_trace r)) <= 1)%nat /\
  forall m k, In (ev_maps_find m k) (r_trace r) ->
    m = maps /\ k = ("owner-" ++ local (msg_attr st))%string /\
    var_ownreq_special <> 0.
Proof.
  unfold alias_deliver, OWNER_ASSIGN.
  destruct (var_ownreq_special =? 0) eqn:V.
  - destruct (negb (errno =? 0)); cbn [r_trace app filter is_maps_find length];
      (split; [apply Nat.le_0_l|]); intros m k H; not_this_event.
  - apply Z.eqb_neq in V.
    destruct (maps_find maps ("owner-" ++ local (msg_attr st))) as [[found|] e];
      destruct (negb (e =? 0));
      cbn [r_trace app filter is_maps_find length];
      (split; [apply Nat.le_refl|]); intros m k H; not_this_event;
      injection H as <- <-; repeat split; assumption.
Qed.

Lemma filter_lookups_none (f : event mypasswd -> bool) key (l : list string) :
  (forall table, f (ev_dict_lookup table key) = false) ->
  filter f (lookups key l) = [].
Proof.
  intros H. apply filter_none. intros e I.
  apply lookups_only in I. destruct I as (t & _ & ->). apply H.
Qed.

(** X5.  Whenever [deliver_token_string] is called, it is with the private
    state of this call: the nesting level is the incremented one and is at
    most 100, the local name and the recipient are those of the request,
    [exp_from] is the local name, the expansion type is EXPAND_TYPE_ALIAS
    and the delivered attribute is the recipient.  The text handed over is
    what a table of the configured list returned for the local name in
    this very run, and the rights are those chosen for that table. *)
Theorem what_the_dispatcher_receives cached st ua s u x :
  let r := deliver_alias cached st ua in
  let key := local (msg_attr st) in
  In (ev_deliver_token_string s u x) (r_trace r) ->
  level s = C.incr (level st) /\ level s <= 100 /\
  local (msg_attr s) = key /\
  recipient (msg_attr s) = recipient (msg_attr st) /\
  exp_from (msg_attr s) = Some key /\
  exp_type (msg_attr s) = EXPAND_TYPE_ALIAS /\
  delivered (msg_attr s) = Some (recipient (msg_attr st)) /\
  exists table,
    In table (argv (alias_maps cached)) /\
    In (ev_dict_lookup table key) (r_trace r) /\
    fst (dict_lookup table key) = Some x /\
    rights_for table ua = Some u.
Proof.
  intros r key H. subst r. by_path cached st ua;
    cbn [emit r_trace] in *.
  - destruct H.
  - not_this_event.
  - apply in_app_or in H. destruct H as [H|H].
    + destruct (in_lookups_not_dispatch _ _ _ _ _ H).
    + unfold alias_missing in H. destruct (reserved_name _);
        cbn [r_trace] in H; not_this_event.
  - apply in_app_or in H. destruct H as [H|H].
    + destruct (in_lookups_not_dispatch _ _ _ _ _ H).
    + cbn [unavailable r_trace] in H. not_this_event.
  - apply in_app_or in H. destruct H as [H|H].
    + destruct (in_lookups_not_dispatch _ _ _ _ _ H).
    + by_owner (alias_maps cached) table text errno (expanding (at_entry st)) ua;
        cbn [owner_missing stopped r_trace] in H; try solve [not_this_event].
      apply alias_deliver_dispatch_state in H.
      destruct H as (-> & -> & -> & _).
      pose proof (alias_deliver_state (alias_maps cached) text errno
                    (marked (expanding (at_entry st))) rights) as Hs.
      cbv zeta in Hs. destruct Hs as (Lv & Lo & Re & Ty & Fr & De).
      rewrite Lv, Lo, Re, Ty, Fr, De.
      split; [reflexivity|]. split; [exact Hdeep|].
      repeat (split; [reflexivity|]).
      exists table. split; [rewrite Hargv; apply in_or_app; right; left; reflexivity|].
      split.
      * apply in_or_app. left. apply asked_in_lookups.
        apply in_or_app. right. left. reflexivity.
      * fold key in Hlook. rewrite Hlook. split; [reflexivity | exact Hrights].
Qed.

(** X6.  What is reported, and how.  A bounce is made for the depth
    ceiling only, with the attributes as they came in.  A deferral is made
    only below the ceiling, for one of two reasons: a table is unavailable,
    or the owner of the table is unknown.  [sent] is called only to discard
    mail for a reserved name that no table has.  Bounces and deferrals
    carry BOUNCE_FLAG_KEEP, and every report names the recipient and the
    local name of the request. *)
Theorem what_is_reported cached st ua :
  let r := deliver_alias cached st ua in
  let key := local (msg_attr st) in
  (forall flags attr why,
     In (ev_bounce_append flags attr why) (r_trace r) ->
     100 < C.incr (level st) /\ flags = BOUNCE_FLAG_KEEP /\
     attr = msg_attr st) /\
  (forall flags attr why,
     In (ev_defer_append flags attr why) (r_trace r) ->
     C.incr (level st) <= 100 /\ flags = BOUNCE_FLAG_KEEP /\
     recipient attr = recipient (msg_attr st) /\ local attr = key /\
     (why = "alias database unavailable"%string \/
      why = "cannot find alias database owner"%string)) /\
  (forall attr why,
     In (ev_sent attr why) (r_trace r) ->
     why = "discarded"%string /\ reserved_name key = true /\
     Forall (not_found key) (argv (alias_maps cached)) /\
     recipient attr = recipient (msg_attr st) /\ local attr = key).
Proof.
  intros r key. subst r. by_path cached st ua; cbn [emit r_trace];
    (split; [|split]); intros; try rename H into Hin;
    try (apply in_app_or in Hin; destruct Hin as [Hin|Hin];
         [apply lookups_only in Hin; destruct Hin as (? & _ & Hin);
          discriminate Hin|]).
  1-3: destruct Hin.
  1-3: cbn [r_trace] in Hin; not_this_event.
  1: injection Hin as <- <- <-; repeat split; assumption.
  1-3: unfold alias_missing in Hin;
       change (local (msg_attr (expanding (at_entry st)))) with key in Hin;
       destruct (reserved_name key) eqn:R; cbn [r_trace] in Hin;
       not_this_event.
  1: injection Hin as <- <-; repeat split; assumption.
  1-3: cbn [unavailable r_trace] in Hin; not_this_event.
  1: injection Hin as <- <- <-; repeat split; try assumption;
     left; reflexivity.
  all: by_owner (alias_maps cached) table text errno (expanding (at_entry st)) ua;
    cbn [owner_missing stopped r_trace] in Hin; try solve [not_this_event].
  - destruct (alias_deliver_reports (alias_maps cached) text errno
                (marked (expanding (at_entry st))) rights) as (B & _ & _).
    destruct (B _ _ _ Hin).
  - destruct (alias_deliver_reports (alias_maps cached) text errno
                (marked (expanding (at_entry st))) rights) as (_ & _ & D).
    destruct (D _ _ _ Hin) as (-> & -> & -> & _).
    pose proof (alias_deliver_state (alias_maps cached) text errno
                  (marked (expanding (at_entry st))) rights) as Hs.
    cbv zeta in Hs. destruct Hs as (_ & Lo & Re & _).
    rewrite Lo, Re. repeat split; try assumption. left. reflexivity.
  - not_this_event. injection Hin as <- <- <-.
    repeat split; try assumption. right. reflexivity.
  - destruct (alias_deliver_reports (alias_maps cached) text errno
                (marked (expanding (at_entry st))) rights) as (_ & S & _).
    destruct (S _ _ Hin).
Qed.

(** X7.  The owner probe.  [maps_find] is called at most once in a run,
    and only when owner_request_special is on.  It is then asked for
    "owner-" followed by the local name, in the list of tables that the
    scan uses, and only after a table had the name and the rights for that
    table were chosen. *)
Theorem owner_probe_discipline cached st ua :
  let r := deliver_alias cached st ua in
  let key := local (msg_attr st) in
  (List.length (filter is_maps_find (r_trace r)) <= 1)%nat /\
  forall m k, In (ev_maps_find m k) (r_trace r) ->
    m = alias_maps cached /\ k = ("owner-" ++ key)%string /\
    var_ownreq_special <> 0 /\
    exists table text errno,
      In (ev_dict_lookup table key) (r_trace r) /\
      dict_lookup table key = (Some text, errno) /\
      rights_for table ua <> None.
Proof.
  intros r key. subst r. by_path cached st ua; cbn [emit r_trace];
    try rewrite filter_app, (filter_lookups_none is_maps_find)
      by reflexivity; cbn [app].
  - split; [apply Nat.le_0_l|]. intros m k H. destruct H.
  - split; [apply Nat.le_0_l|]. intros m k H. not_this_event.
  - unfold alias_missing. destruct (reserved_name _); cbn [r_trace filter is_maps_find length];
      (split; [apply Nat.le_0_l|]); intros m k H;
      apply in_app_or in H; destruct H as [H|H];
      try destruct (in_lookups_not_maps_find _ _ _ _ H); not_this_event.
  - cbn [unavailable r_trace filter is_maps_find length].
    split; [apply Nat.le_0_l|]. intros m k H.
    apply in_app_or in H. destruct H as [H|H];
      try destruct (in_lookups_not_maps_find _ _ _ _ H); not_this_event.
  - by_owner (alias_maps cached) table text errno (expanding (at_entry st)) ua;
      cbn [owner_missing stopped r_trace filter is_maps_find length].
    2-4: split; [apply Nat.le_0_l|]; intros m k H;
         apply in_app_or in H; destruct H as [H|H];
         try destruct (in_lookups_not_maps_find _ _ _ _ H); not_this_event.
    destruct (alias_deliver_probe (alias_maps cached) text errno
                (marked (expanding (at_entry st))) rights) as (Once & Probe).
    split; [exact Once|]. intros m k H.
    apply in_app_or in H. destruct H as [H|H];
      [destruct (in_lookups_not_maps_find _ _ _ _ H)|].
    destruct (Probe m k H) as (-> & -> & V).
    split; [reflexivity|]. split; [reflexivity|]. split; [exact V|].
    exists table, text, errno. split.
    + apply in_or_app. left. apply asked_in_lookups.
      apply in_or_app. right. left. reflexivity.
    + split; [exact Hlook|]. rewrite Hrights. discriminate.
Qed.



Lemma rights_for_origin table ua rights :
  rights_for table ua = Some rights ->
  exists dict,
    dict_handle table = Some dict /\
    ((fd dict < 0 /\ rights = default_rights) \/
     (0 <= fd dict /\
      exists info, fstat (fd dict) = Some info /\
        ((st_uid info = 0 /\ rights = default_rights) \/
         (st_uid info <> 0 /\
          exists pwd, mypwuid (st_uid info) = Some pwd /\
                      rights = owner_rights pwd)))).
Proof.
  unfold rights_for, dict_owner.
  destruct (dict_handle table) as [dict|]; [|discriminate].
  destruct (fd dict <? 0) eqn:N.
  - apply Z.ltb_lt in N. cbn. intros [= <-]. exists dict.
    split; [reflexivity|]. left. split; [exact N | reflexivity].
  - apply Z.ltb_ge in N. destruct (fstat (fd dict)) as [info|] eqn:Fs; [|discriminate].
    destruct (st_uid info =? 0) eqn:R.
    + apply Z.eqb_eq in R. intros [= <-]. exists dict.
      split; [reflexivity|]. right. split; [exact N|].
      exists info. split; [exact Fs|]. left. split; [exact R | reflexivity].
    + apply Z.eqb_neq in R.
      destruct (mypwuid (st_uid info)) as [pwd|] eqn:P; [|discriminate].
      intros [= <-]. exists dict.
      split; [reflexivity|]. right. split; [exact N|].
      exists info. split; [exact Fs|]. right. split; [exact R|].
      exists pwd. split; [exact P | reflexivity].
Qed.

Lemma alias_deliver_overwrites maps text errno s s' ua :
  level s = level s' ->
  sender (msg_attr s) = sender (msg_attr s') ->
  recipient (msg_attr s) = recipient (msg_attr s') ->
  local (msg_attr s) = local (msg_attr s') ->
  exp_type (msg_attr s) = exp_type (msg_attr s') ->
  exp_from (msg_attr s) = exp_from (msg_attr s') ->
  alias_deliver maps text errno s ua = alias_deliver maps text errno s' ua.
Proof.
  destruct s as [lv [se re lo ow de ty fr]].
  destruct s' as [lv' [se' re' lo' ow' de' ty' fr']].
  cbn [level msg_attr sender recipient local exp_type exp_from].
  intros -> -> -> -> -> ->.
  unfold alias_deliver, OWNER_ASSIGN. cbn [msg_attr local].
  destruct (var_ownreq_special =? 0).
  - destruct (negb (errno =? 0)); reflexivity.
  - destruct (maps_find maps ("owner-" ++ lo')) as [[found|] e];
      destruct (negb (e =? 0)); reflexivity.
Qed.



(** X10.  The rights that [deliver_token_string] runs with never come from
    the caller.  They are the default rights when the table that had the
    name has no file, or has a file that belongs to uid 0; otherwise they
    are the rights of the account, known to the password database, that
    owns the file of that table. *)
Theorem rights_come_from_the_table cached st ua s u x :
  let r := deliver_alias cached st ua in
  let key := local (msg_attr st) in
  In (ev_deliver_token_string s u x) (r_trace r) ->
  exists table dict,
    In (ev_dict_lookup table key) (r_trace r) /\
    fst (dict_lookup table key) = Some x /\
    dict_handle table = Some dict /\
    ((fd dict < 0 /\ u = default_rights) \/
     (0 <= fd dict /\
      exists info, fstat (fd dict) = Some info /\
        ((st_uid info = 0 /\ u = default_rights) \/
         (st_uid info <> 0 /\
          exists pwd, mypwuid (st_uid info) = Some pwd /\
                      u = owner_rights pwd)))).
Proof.
  intros r key H. subst r. by_path cached st ua;
    cbn [emit r_trace] in *.
  - destruct H.
  - not_this_event.
  - apply in_app_or in H. destruct H as [H|H].
    + destruct (in_lookups_not_dispatch _ _ _ _ _ H).
    + unfold alias_missing in H. destruct (reserved_name _);
        cbn [r_trace] in H; not_this_event.
  - apply in_app_or in H. destruct H as [H|H].
    + destruct (in_lookups_not_dispatch _ _ _ _ _ H).
    + cbn [unavailable r_trace] in H. not_this_event.
  - apply in_app_or in H. destruct H as [H|H].
    + destruct (in_lookups_not_dispatch _ _ _ _ _ H).
    + by_owner (alias_maps cached) table text errno (expanding (at_entry st)) ua;
        cbn [owner_missing stopped r_trace] in H; try solve [not_this_event].
      apply alias_deliver_dispatch_rights in H. destruct H as (-> & ->).
      destruct (rights_for_origin _ _ _ Hrights) as (dict & Hd & Origin).
      exists table, dict. split.
      * apply in_or_app. left. apply asked_in_lookups.
        apply in_or_app. right. left. reflexivity.
      * fold key in Hlook. rewrite Hlook.
        split; [reflexivity|]. split; [exact Hd | exact Origin].
Qed.

(** X11.  An expansion does not inherit.  Take two requests with the same
    level, sender, recipient and local name, neither reached from its own
    expansion.  If for one of them a table has the name and the rights for
    that table can be chosen, the two runs are the same in every respect:
    the owner, the delivered attribute, the expansion type and [exp_from]
    that the caller passed in have no influence on what is looked up,
    reported, delivered or stored. *)
Theorem expansion_does_not_inherit cached st st' ua table text errno :
  same_request st st' ->
  self_reference st = false ->
  self_reference st' = false ->
  In (ev_dict_lookup table (local (msg_attr st)))
     (r_trace (deliver_alias cached st ua)) ->
  dict_lookup table (local (msg_attr st)) = (Some text, errno) ->
  rights_for table ua <> None ->
  deliver_alias cached st' ua = deliver_alias cached st ua.
Proof.
  intros (Lv & Se & Re & Lo) S S' I E R.
  destruct (deliver_alias_asked _ _ _ _ _ I)
    as (_ & L & _ & pre & post & A & F).
  destruct (rights_for table ua) as [rights|] eqn:Hr; [clear R|destruct R; reflexivity].
  rewrite (deliver_alias_at_match cached st ua pre table post text errno)
    by assumption.
  rewrite (deliver_alias_at_match cached st' ua pre table post text errno);
    try assumption; try (rewrite <- Lo; assumption); try (rewrite <- Lv; assumption).
  rewrite <- Lo.
  rewrite !(alias_found_with_rights _ _ _ _ _ _ _ Hr).
  f_equal. apply alias_deliver_overwrites; cbn; congruence.
Qed.

End Properties.

(** ** The properties at work on the small installation *)

Ltac event_is_there := vm_compute; repeat first [left; reflexivity | right].

(** C1 as stated fails: at depth 100 the loop is reported with
    [bounce_append] and no deferral is made; and when the name is reached
    from its own expansion the call returns NO although the depth exceeds
    the ceiling. *)
Lemma depth_guard_does_not_defer :
  100 < C.incr (level Site.staff_deep) /\
  r_exit (deliver_alias (X := Site.office) None Site.staff_deep default_rights)
  = Return YES /\
  ~ deferred_report
      (deliver_alias (X := Site.office) None Site.staff_deep default_rights) /\
  100 < C.incr (level Site.staff_in_staff_deep) /\
  r_exit (deliver_alias (X := Site.office) None Site.staff_in_staff_deep
                        default_rights) = Return NO.
Proof.
  split; [reflexivity|]. split; [reflexivity|]. split.
  - intros (flags & attr & why & H). vm_compute in H.
    destruct H as [H|[H|[]]]; discriminate H.
  - split; reflexivity.
Qed.

(** C1 as amended, at work. *)
Lemma depth_guard_bounces_witness :
  self_reference Site.staff_deep = false /\
  100 < C.incr (level Site.staff_deep) /\
  r_trace (deliver_alias (X := Site.office) None Site.staff_deep default_rights)
  = [ev_msg_warn "possible alias database loop for staff";
     ev_bounce_append 0 (msg_attr Site.staff_deep)
                      "possible alias database loop for staff"].
Proof.
  assert (H1 : self_reference Site.staff_deep = false) by reflexivity.
  assert (H2 : 100 < C.incr (level Site.staff_deep)) by reflexivity.
  split; [exact H1|]. split; [exact H2|].
  exact (proj2 (proj2 (depth_guard_bounces (X := Site.office) None
                         Site.staff_deep default_rights H1 H2))).
Defined.

(** C2 at work.  With NIS second in the list, the lookup of [dev] fails
    there and the table after it is not asked.  With the list's table
    first and NIS behind it, [dev] is found, but the probe for [owner-dev]
    runs into NIS: the message is deferred and not delivered. *)
Lemma lookup_error_defers_witness :
  In (ev_dict_lookup Site.nis_aliases (local (msg_attr Site.dev_top)))
     (r_trace (deliver_alias (X := Site.nis_down) None Site.dev_top
                             default_rights)) /\
  dict_lookup (Collaborators := Site.nis_down) Site.nis_aliases
              (local (msg_attr Site.dev_top)) = (None, 1) /\
  r_status (deliver_alias (X := Site.nis_down) None Site.dev_top default_rights)
  = Some (defer_append (Collaborators := Site.nis_down) 0
            (set_exp_from (msg_attr Site.dev_top) (Some "dev"%string))
            "alias database unavailable") /\
  In (ev_dict_lookup Site.list_aliases (local (msg_attr Site.dev_top)))
     (r_trace (deliver_alias (X := Site.list_then_nis) None Site.dev_top
                             default_rights)) /\
  dict_lookup (Collaborators := Site.list_then_nis) Site.list_aliases
              (local (msg_attr Site.dev_top)) = (Some "carol"%string, 0) /\
  rights_for (X := Site.list_then_nis) Site.list_aliases default_rights
  = Some (owner_rights "list"%string) /\
  maps_find (Collaborators := Site.list_then_nis)
            (alias_maps (X := Site.list_then_nis) None) "owner-dev"
  = (None, 1) /\
  errno_at_delivery (X := Site.list_then_nis)
                    (alias_maps (X := Site.list_then_nis) None)
                    Site.dev_top 0 <> 0 /\
  r_exit (deliver_alias (X := Site.list_then_nis) None Site.dev_top
                        default_rights) = Return YES /\
  r_status (deliver_alias (X := Site.list_then_nis) None Site.dev_top
                          default_rights)
  = Some (defer_append (Collaborators := Site.list_then_nis) 0
            (msg_attr (r_state (deliver_alias (X := Site.list_then_nis) None
                                  Site.dev_top default_rights)))
            "alias database unavailable") /\
  dispatches (r_trace (deliver_alias (X := Site.list_then_nis) None
                         Site.dev_top default_rights)) = 0%nat.
Proof.
  assert (H1 : In (ev_dict_lookup Site.nis_aliases
                     (local (msg_attr Site.dev_top)))
                  (r_trace (deliver_alias (X := Site.nis_down) None
                              Site.dev_top default_rights)))
    by event_is_there.
  assert (H2 : dict_lookup (Collaborators := Site.nis_down) Site.nis_aliases
                 (local (msg_attr Site.dev_top)) = (None, 1)) by reflexivity.
  assert (H3 : 1 <> 0) by discriminate.
  assert (K1 : In (ev_dict_lookup Site.list_aliases
                     (local (msg_attr Site.dev_top)))
                  (r_trace (deliver_alias (X := Site.list_then_nis) None
                              Site.dev_top default_rights)))
    by event_is_there.
  assert (K2 : dict_lookup (Collaborators := Site.list_then_nis)
                 Site.list_aliases (local (msg_attr Site.dev_top))
               = (Some "carol"%string, 0)) by reflexivity.
  assert (K3 : rights_for (X := Site.list_then_nis) Site.list_aliases
                 default_rights = Some (owner_rights "list"%string))
    by reflexivity.
  assert (K4 : errno_at_delivery (X := Site.list_then_nis)
                 (alias_maps (X := Site.list_then_nis) None)
                 Site.dev_top 0 <> 0) by (vm_compute; discriminate).
  split; [exact H1|]. split; [exact H2|].
  destruct (lookup_error_defers (X := Site.nis_down) None Site.dev_top
              default_rights Site.nis_aliases H1) as (Scan & _).
  destruct (Scan 1 H2 H3) as (_ & S & _).
  split; [exact S|].
  split; [exact K1|]. split; [exact K2|]. split; [exact K3|].
  split; [reflexivity|]. split; [exact K4|].
  destruct (lookup_error_defers (X := Site.list_then_nis) None Site.dev_top
              default_rights Site.list_aliases K1) as (_ & Probe).
  destruct (Probe "carol"%string 0 (owner_rights "list"%string) K2 K3 K4)
    as (E & T & D & _).
  split; [exact E|]. split; [exact T | exact D].
Defined.

(** C3 as stated fails: no table has [nobody] and none fails, yet at depth
    100 the call returns YES (with the loop report) and not NO; and no table
    has [postmaster], yet inside its own expansion the call returns NO
    without a status instead of discarding the message. *)
Lemma no_alias_is_not_always_no :
  Forall (not_found (X := Site.orphaned) (local (msg_attr Site.nobody_deep)))
         (argv (alias_maps (X := Site.orphaned) None)) /\
  reserved_name (X := Site.orphaned) (local (msg_attr Site.nobody_deep)) = false /\
  r_exit (deliver_alias (X := Site.orphaned) None Site.nobody_deep default_rights)
  = Return YES /\
  Forall (not_found (X := Site.orphaned)
                    (local (msg_attr Site.postmaster_in_postmaster)))
         (argv (alias_maps (X := Site.orphaned) None)) /\
  reserved_name (X := Site.orphaned)
                (local (msg_attr Site.postmaster_in_postmaster)) = true /\
  r_exit (deliver_alias (X := Site.orphaned) None
                        Site.postmaster_in_postmaster default_rights)
  = Return NO /\
  r_status (deliver_alias (X := Site.orphaned) None
                          Site.postmaster_in_postmaster default_rights)
  = None.
Proof.
  split; [repeat constructor|]. split; [reflexivity|]. split; [reflexivity|].
  split; [repeat constructor|]. repeat split.
Qed.

(** C3 as amended, at work: a top-level request for [nobody]. *)
Lemma no_alias_found_witness :
  self_reference Site.nobody_top = false /\
  C.incr (level Site.nobody_top) <= 100 /\
  Forall (not_found (X := Site.orphaned) (local (msg_attr Site.nobody_top)))
         (argv (alias_maps (X := Site.orphaned) None)) /\
  r_exit (deliver_alias (X := Site.orphaned) None Site.nobody_top
                        default_rights) = Return NO /\
  r_trace (deliver_alias (X := Site.orphaned) None Site.nobody_top
                         default_rights)
  = [ev_dict_lookup Site.etc_aliases "nobody";
     ev_dict_lookup Site.gone_aliases "nobody"].
Proof.
  assert (H1 : self_reference Site.nobody_top = false) by reflexivity.
  assert (H2 : C.incr (level Site.nobody_top) <= 100)
    by (vm_compute; discriminate).
  assert (H3 : Forall (not_found (X := Site.orphaned)
                         (local (msg_attr Site.nobody_top)))
                      (argv (alias_maps (X := Site.orphaned) None)))
    by (repeat constructor).
  split; [exact H1|]. split; [exact H2|]. split; [exact H3|].
  destruct (no_alias_found (X := Site.orphaned) None Site.nobody_top
              default_rights H1 H2 H3) as (Plain & _).
  destruct (Plain eq_refl) as (E & _ & T).
  split; [exact E | exact T].
Defined.

(** C4 at work: [staff] inside the expansion of [Staff], at depth 100. *)
Lemma self_reference_returns_no_witness :
  exp_from (msg_attr Site.staff_in_staff_deep) = Some "Staff"%string /\
  C.strcasecmp "Staff" (local (msg_attr Site.staff_in_staff_deep)) = 0 /\
  100 < C.incr (level Site.staff_in_staff_deep) /\
  r_exit (deliver_alias (X := Site.office) None Site.staff_in_staff_deep
                        default_rights) = Return NO /\
  r_trace (deliver_alias (X := Site.office) None Site.staff_in_staff_deep
                         default_rights) = [].
Proof.
  assert (H1 : exp_from (msg_attr Site.staff_in_staff_deep)
               = Some "Staff"%string) by reflexivity.
  assert (H2 : C.strcasecmp "Staff" (local (msg_attr Site.staff_in_staff_deep))
               = 0) by reflexivity.
  split; [exact H1|]. split; [exact H2|]. split; [reflexivity|].
  destruct (self_reference_returns_no (X := Site.office) None
              Site.staff_in_staff_deep default_rights "Staff" H1 H2)
    as (E & _ & T).
  split; [exact E | exact T].
Defined.

(** C5 as stated fails: the first table has [dev], but the owner probe runs
    into NIS, which is down; the message is deferred and
    [deliver_token_string] is never called. *)
Lemma first_match_is_not_always_delivered :
  In (ev_dict_lookup Site.list_aliases (local (msg_attr Site.dev_top)))
     (r_trace (deliver_alias (X := Site.list_then_nis) None Site.dev_top
                             default_rights)) /\
  fst (dict_lookup (Collaborators := Site.list_then_nis) Site.list_aliases
                   (local (msg_attr Site.dev_top))) = Some "carol"%string /\
  dispatches (r_trace (deliver_alias (X := Site.list_then_nis) None
                         Site.dev_top default_rights)) = 0%nat /\
  r_status (deliver_alias (X := Site.list_then_nis) None Site.dev_top
                          default_rights)
  = Some (defer_append (Collaborators := Site.list_then_nis) 0
            (msg_attr (r_state (deliver_alias (X := Site.list_then_nis) None
                                  Site.dev_top default_rights)))
            "alias database unavailable").
Proof.
  split; [event_is_there|]. repeat split.
Qed.

(** C5 as amended, at work: [staff] is in the second table, its owner alias
    is found, and NIS, the third table, is not needed. *)
Lemma first_match_is_delivered_witness :
  In (ev_dict_lookup Site.etc_aliases (local (msg_attr Site.staff_top)))
     (r_trace (deliver_alias (X := Site.office) None Site.staff_top
                             Site.somebody)) /\
  dict_lookup (Collaborators := Site.office) Site.etc_aliases
              (local (msg_attr Site.staff_top))
  = (Some "alice,bob"%string, 0) /\
  rights_for (X := Site.office) Site.etc_aliases Site.somebody
  = Some default_rights /\
  errno_at_delivery (X := Site.office) (alias_maps (X := Site.office) None)
                    Site.staff_top 0 = 0 /\
  r_exit (deliver_alias (X := Site.office) None Site.staff_top Site.somebody)
  = Return YES /\
  dispatches (r_trace (deliver_alias (X := Site.office) None Site.staff_top
                                     Site.somebody)) = 1%nat.
Proof.
  assert (H1 : In (ev_dict_lookup Site.etc_aliases
                     (local (msg_attr Site.staff_top)))
                  (r_trace (deliver_alias (X := Site.office) None
                              Site.staff_top Site.somebody)))
    by event_is_there.
  assert (H2 : dict_lookup (Collaborators := Site.office) Site.etc_aliases
                 (local (msg_attr Site.staff_top))
               = (Some "alice,bob"%string, 0)) by reflexivity.
  assert (H3 : rights_for (X := Site.office) Site.etc_aliases Site.somebody
               = Some default_rights) by reflexivity.
  assert (H4 : errno_at_delivery (X := Site.office)
                 (alias_maps (X := Site.office) None) Site.staff_top 0 = 0)
    by reflexivity.
  split; [exact H1|]. split; [exact H2|]. split; [exact H3|].
  split; [exact H4|].
  destruct (first_match_is_delivered (X := Site.office) None Site.staff_top
              Site.somebody Site.etc_aliases "alice,bob" 0 H1 H2)
    as (_ & _ & Chosen).
  destruct (Chosen default_rights H3) as (E & _ & _ & Clean).
  destruct (Clean H4) as (_ & D & _).
  split; [exact E | exact D].
Defined.

(** C6 at work: the caller holds the rights of [somebody]; the alias is in
    the table of uid 0, the second of the list. *)
Lemma root_owned_source_gives_default_rights_witness :
  In (ev_dict_lookup Site.etc_aliases (local (msg_attr Site.staff_top)))
     (r_trace (deliver_alias (X := Site.office) None Site.staff_top
                             Site.somebody)) /\
  dict_lookup (Collaborators := Site.office) Site.etc_aliases
              (local (msg_attr Site.staff_top))
  = (Some "alice,bob"%string, 0) /\
  dict_owner (X := Site.office) Site.etc_aliases = owner_uid 0 /\
  r_usr_attr (deliver_alias (X := Site.office) None Site.staff_top
                            Site.somebody) = default_rights.
Proof.
  assert (H1 : In (ev_dict_lookup Site.etc_aliases
                     (local (msg_attr Site.staff_top)))
                  (r_trace (deliver_alias (X := Site.office) None
                              Site.staff_top Site.somebody)))
    by event_is_there.
  assert (H2 : dict_lookup (Collaborators := Site.office) Site.etc_aliases
                 (local (msg_attr Site.staff_top))
               = (Some "alice,bob"%string, 0)) by reflexivity.
  assert (H3 : dict_owner (X := Site.office) Site.etc_aliases = owner_uid 0)
    by reflexivity.
  split; [exact H1|]. split; [exact H2|]. split; [exact H3|].
  exact (proj1 (proj2 (root_owned_source_gives_default_rights
                         (X := Site.office) None Site.staff_top Site.somebody
                         Site.etc_aliases "alice,bob" 0 H1 H2 H3))).
Defined.

(** C7 at work: [ghost] is in the table of the removed account 1002. *)
Lemma unknown_owner_defers_witness :
  In (ev_dict_lookup Site.gone_aliases (local (msg_attr Site.ghost_top)))
     (r_trace (deliver_alias (X := Site.orphaned) None Site.ghost_top
                             Site.somebody)) /\
  dict_lookup (Collaborators := Site.orphaned) Site.gone_aliases
              (local (msg_attr Site.ghost_top)) = (Some "dave"%string, 0) /\
  dict_owner (X := Site.orphaned) Site.gone_aliases = owner_uid 1002 /\
  1002 <> 0 /\
  mypwuid (Collaborators := Site.orphaned) 1002 = None /\
  r_exit (deliver_alias (X := Site.orphaned) None Site.ghost_top Site.somebody)
  = Return YES /\
  dispatches (r_trace (deliver_alias (X := Site.orphaned) None Site.ghost_top
                                     Site.somebody)) = 0%nat /\
  r_usr_attr (deliver_alias (X := Site.orphaned) None Site.ghost_top
                            Site.somebody) = Site.somebody.
Proof.
  assert (H1 : In (ev_dict_lookup Site.gone_aliases
                     (local (msg_attr Site.ghost_top)))
                  (r_trace (deliver_alias (X := Site.orphaned) None
                              Site.ghost_top Site.somebody)))
    by event_is_there.
  assert (H2 : dict_lookup (Collaborators := Site.orphaned) Site.gone_aliases
                 (local (msg_attr Site.ghost_top)) = (Some "dave"%string, 0))
    by reflexivity.
  assert (H3 : dict_owner (X := Site.orphaned) Site.gone_aliases
               = owner_uid 1002) by reflexivity.
  assert (H4 : 1002 <> 0) by discriminate.
  assert (H5 : mypwuid (Collaborators := Site.orphaned) 1002 = None)
    by reflexivity.
  split; [exact H1|]. split; [exact H2|]. split; [exact H3|].
  split; [exact H4|]. split; [exact H5|].
  destruct (unknown_owner_defers (X := Site.orphaned) None Site.ghost_top
              Site.somebody Site.gone_aliases "dave" 0 1002 H1 H2 H3 H4 H5)
    as (E & _ & D & U & _).
  split; [exact E|]. split; [exact D | exact U].
Defined.

(** C8 as stated fails: [ghost] matches in the table of the removed
    account; the call ends before the owner step, so no owner probe is
    made and the owner attribute is still the one inherited from the
    expansion of [staff], whether owner_request_special is on or off. *)
Lemma owner_step_is_not_always_reached :
  In (ev_dict_lookup Site.gone_aliases (local (msg_attr Site.ghost_in_staff)))
     (r_trace (deliver_alias (X := Site.orphaned) None Site.ghost_in_staff
                             default_rights)) /\
  fst (dict_lookup (Collaborators := Site.orphaned) Site.gone_aliases
                   (local (msg_attr Site.ghost_in_staff)))
  = Some "dave"%string /\
  var_ownreq_special (Collaborators := Site.orphaned) <> 0 /\
  (forall m k,
     ~ In (ev_maps_find m k)
          (r_trace (deliver_alias (X := Site.orphaned) None
                      Site.ghost_in_staff default_rights))) /\
  owner (msg_attr (r_state (deliver_alias (X := Site.orphaned) None
                              Site.ghost_in_staff default_rights)))
  = Some "owner-staff@example.com"%string /\
  var_ownreq_special (Collaborators := Site.orphaned_no_owner_special) = 0 /\
  owner (msg_attr (r_state (deliver_alias
                              (X := Site.orphaned_no_owner_special) None
                              Site.ghost_in_staff default_rights)))
  = Some "owner-staff@example.com"%string.
Proof.
  split; [event_is_there|]. split; [reflexivity|]. split; [discriminate|].
  split.
  - intros m k H. vm_compute in H.
    destruct H as [H|[H|[H|[H|[]]]]]; discriminate H.
  - repeat split.
Qed.

(** C8 as amended, at work: [staff] has an owner alias. *)
Lemma owner_attribute_after_match_witness :
  In (ev_dict_lookup Site.etc_aliases (local (msg_attr Site.staff_top)))
     (r_trace (deliver_alias (X := Site.office) None Site.staff_top
                             default_rights)) /\
  dict_lookup (Collaborators := Site.office) Site.etc_aliases
              (local (msg_attr Site.staff_top))
  = (Some "alice,bob"%string, 0) /\
  rights_for (X := Site.office) Site.etc_aliases default_rights
  = Some default_rights /\
  owner (msg_attr (r_state (deliver_alias (X := Site.office) None
                              Site.staff_top default_rights)))
  = Some "owner-staff@example.com"%string.
Proof.
  assert (H1 : In (ev_dict_lookup Site.etc_aliases
                     (local (msg_attr Site.staff_top)))
                  (r_trace (deliver_alias (X := Site.office) None
                              Site.staff_top default_rights)))
    by event_is_there.
  assert (H2 : dict_lookup (Collaborators := Site.office) Site.etc_aliases
                 (local (msg_attr Site.staff_top))
               = (Some "alice,bob"%string, 0)) by reflexivity.
  assert (H3 : rights_for (X := Site.office) Site.etc_aliases default_rights
               = Some default_rights) by reflexivity.
  split; [exact H1|]. split; [exact H2|]. split; [exact H3|].
  destruct (owner_attribute_after_match (X := Site.office) None Site.staff_top
              default_rights Site.etc_aliases "alice,bob" 0 default_rights
              H1 H2 H3) as (_ & On & _).
  assert (V : var_ownreq_special (Collaborators := Site.office) <> 0)
    by discriminate.
  destruct (On V) as (_ & Found & _).
  exact (Found "admin"%string eq_refl).
Defined.

(** C10 at work: a top-level request for [self], which is an alias for
    itself, is expanded. *)
Lemma null_exp_from_is_not_short_circuited_witness :
  exp_from (msg_attr Site.self_top) = None /\
  r_exit (deliver_alias (X := Site.office) None Site.self_top default_rights)
  <> Return NO.
Proof.
  assert (H : exp_from (msg_attr Site.self_top) = None) by reflexivity.
  split; [exact H|].
  destruct (null_exp_from_is_not_short_circuited (X := Site.office) None
              Site.self_top default_rights H) as (_ & _ & _ & Self).
  apply (Self Site.etc_aliases).
  - event_is_there.
  - reflexivity.
Defined.

(** ** The further properties at work *)

(** Installations in which the owner of a table cannot be found out. *)
Module Faulty.

Local Open Scope string_scope.

Definition site (handle : string -> option DICT) (owner_of : Z -> option stat)
  : Collaborators string :=
  {| var_alias_maps := "hash:/etc/aliases";
     var_ownreq_special := 1;
     BOUNCE_FLAG_KEEP := 0;
     EXPAND_TYPE_ALIAS := 1;
     MAIL_ADDR_MAIL_DAEMON := "MAILER-DAEMON";
     MAIL_ADDR_POSTMASTER := "postmaster";
     maps_create := fun _ _ => mkMAPS [Site.etc_aliases];
     maps_find := fun maps key => Site.find (argv maps) key;
     dict_lookup := Site.lookup;
     dict_handle := handle;
     fstat := owner_of;
     mypwuid := Site.pwuid;
     canon_addr_internal := fun addr => addr ++ "@example.com";
     bounce_append := fun _ _ _ => 0;
     defer_append := fun _ _ _ => -1;
     sent := fun _ _ => 0;
     deliver_token_string := fun _ _ _ => 0 |}.


(** The file of the table cannot be examined. *)
Definition unreadable : Collaborators string :=
  site Site.handle (fun _ => None).

(** [staff] asked for again by a caller that holds an owner and an
    expansion in progress. *)
Definition staff_again : LOCAL_STATE :=
  Site.nested "staff" 0 (Some "dev") (Some "owner-dev@example.com").

End Faulty.

(** X5 at work: the delivery of [staff]. *)
Lemma what_the_dispatcher_receives_witness :
  In (ev_deliver_token_string
        (r_state (deliver_alias (X := Site.office) None Site.staff_top
                                Site.somebody))
        default_rights "alice,bob")
     (r_trace (deliver_alias (X := Site.office) None Site.staff_top
                             Site.somebody)) /\
  level (r_state (deliver_alias (X := Site.office) None Site.staff_top
                                Site.somebody)) <= 100 /\
  exp_from (msg_attr (r_state (deliver_alias (X := Site.office) None
                                 Site.staff_top Site.somebody)))
  = Some "staff"%string.
Proof.
  assert (H : In (ev_deliver_token_string
                    (r_state (deliver_alias (X := Site.office) None
                                Site.staff_top Site.somebody))
                    default_rights "alice,bob")
                 (r_trace (deliver_alias (X := Site.office) None
                             Site.staff_top Site.somebody)))
    by event_is_there.
  split; [exact H|].
  destruct (what_the_dispatcher_receives (X := Site.office) None Site.staff_top
              Site.somebody _ _ _ H) as (_ & B & _ & _ & F & _).
  split; [exact B | exact F].
Defined.

(** X6 at work: the deferral for the table of the removed account. *)
Lemma what_is_reported_witness :
  In (ev_defer_append 0
        (msg_attr (r_state (deliver_alias (X := Site.orphaned) None
                              Site.ghost_top Site.somebody)))
        "cannot find alias database owner")
     (r_trace (deliver_alias (X := Site.orphaned) None Site.ghost_top
                             Site.somebody)) /\
  recipient (msg_attr (r_state (deliver_alias (X := Site.orphaned) None
                                  Site.ghost_top Site.somebody)))
  = recipient (msg_attr Site.ghost_top).
Proof.
  assert (H : In (ev_defer_append 0
                    (msg_attr (r_state (deliver_alias (X := Site.orphaned) None
                                          Site.ghost_top Site.somebody)))
                    "cannot find alias database owner")
                 (r_trace (deliver_alias (X := Site.orphaned) None
                             Site.ghost_top Site.somebody)))
    by event_is_there.
  split; [exact H|].
  destruct (what_is_reported (X := Site.orphaned) None Site.ghost_top
              Site.somebody) as (_ & D & _).
  destruct (D _ _ _ H) as (_ & _ & R & _).
  exact R.
Defined.

(** X7 at work: the owner probe for [staff]. *)
Lemma owner_probe_discipline_witness :
  In (ev_maps_find (alias_maps (X := Site.office) None) "owner-staff")
     (r_trace (deliver_alias (X := Site.office) None Site.staff_top
                             Site.somebody)) /\
  var_ownreq_special (Collaborators := Site.office) <> 0.
Proof.
  assert (H : In (ev_maps_find (alias_maps (X := Site.office) None)
                    "owner-staff")
                 (r_trace (deliver_alias (X := Site.office) None
                             Site.staff_top Site.somebody)))
    by event_is_there.
  split; [exact H|].
  destruct (owner_probe_discipline (X := Site.office) None Site.staff_top
              Site.somebody) as (_ & P).
  destruct (P _ _ H) as (_ & _ & V & _).
  exact V.
Defined.



(** The list's own table and the system table, both in working order. *)
Definition two_files : Collaborators string :=
  Site.site [Site.list_aliases; Site.etc_aliases] 1.

(** X10 at work: [dev] is delivered with the rights of the list account,
    which owns the file of the table, not with those of the caller. *)
Lemma rights_come_from_the_table_witness :
  In (ev_deliver_token_string
        (r_state (deliver_alias (X := two_files) None Site.dev_top
                                Site.somebody))
        (owner_rights "list"%string) "carol")
     (r_trace (deliver_alias (X := two_files) None Site.dev_top
                             Site.somebody)) /\
  exists table dict,
    In (ev_dict_lookup table "dev")
       (r_trace (deliver_alias (X := two_files) None Site.dev_top
                               Site.somebody)) /\
    dict_handle (Collaborators := two_files) table = Some dict /\
    0 <= fd dict /\
    exists info, fstat (Collaborators := two_files) (fd dict) = Some info /\
                 mypwuid (Collaborators := two_files) (st_uid info)
                 = Some "list"%string.
Proof.
  assert (H : In (ev_deliver_token_string
                    (r_state (deliver_alias (X := two_files) None
                                Site.dev_top Site.somebody))
                    (owner_rights "list"%string) "carol")
                 (r_trace (deliver_alias (X := two_files) None
                             Site.dev_top Site.somebody)))
    by event_is_there.
  split; [exact H|].
  destruct (rights_come_from_the_table (X := two_files) None
              Site.dev_top Site.somebody _ _ _ H)
    as (table & dict & I & _ & D & [(_ & U) | (P & info & F & [(_ & U) | (_ & pwd & M & U)])]);
    try discriminate U.
  injection U as <-.
  exists table, dict. split; [exact I|]. split; [exact D|].
  split; [exact P|]. exists info. split; [exact F | exact M].
Defined.

(** X11 at work: [staff] asked for by a caller that holds an owner and an
    expansion of [dev] is expanded like a fresh request for [staff]. *)
Lemma expansion_does_not_inherit_witness :
  same_request Site.staff_top Faulty.staff_again /\
  self_reference Site.staff_top = false /\
  self_reference Faulty.staff_again = false /\
  In (ev_dict_lookup Site.etc_aliases (local (msg_attr Site.staff_top)))
     (r_trace (deliver_alias (X := Site.office) None Site.staff_top
                             default_rights)) /\
  dict_lookup (Collaborators := Site.office) Site.etc_aliases
              (local (msg_attr Site.staff_top))
  = (Some "alice,bob"%string, 0) /\
  rights_for (X := Site.office) Site.etc_aliases default_rights <> None /\
  deliver_alias (X := Site.office) None Faulty.staff_again default_rights
  = deliver_alias (X := Site.office) None Site.staff_top default_rights.
Proof.
  assert (H1 : same_request Site.staff_top Faulty.staff_again)
    by (repeat split).
  assert (H2 : self_reference Site.staff_top = false) by reflexivity.
  assert (H3 : self_reference Faulty.staff_again = false) by reflexivity.
  assert (H4 : In (ev_dict_lookup Site.etc_aliases
                     (local (msg_attr Site.staff_top)))
                  (r_trace (deliver_alias (X := Site.office) None
                              Site.staff_top default_rights)))
    by event_is_there.
  assert (H5 : dict_lookup (Collaborators := Site.office) Site.etc_aliases
                 (local (msg_attr Site.staff_top))
               = (Some "alice,bob"%string, 0)) by reflexivity.
  assert (H6 : rights_for (X := Site.office) Site.etc_aliases default_rights
               <> None) by discriminate.
  split; [exact H1|]. split; [exact H2|]. split; [exact H3|].
  split; [exact H4|]. split; [exact H5|]. split; [exact H6|].
  exact (expansion_does_not_inherit (X := Site.office) None Site.staff_top
           Faulty.staff_again default_rights Site.etc_aliases "alice,bob" 0
           H1 H2 H3 H4 H5 H6).
Defined.
